(** * PDF parsing service: section segmentation and the vision-backend pipeline

    A shallow embedding of [src/services/pdf_parser/deepseek.py] and
    [src/services/pdf_parser/parser.py].

    Python [str] values are sequences of Unicode code points and are modelled
    as [list N].  Everything that the Python code obtains from the outside
    (file system, PDF reader, renderer, OCR model) is read from an explicit
    environment record; the temporary directories and the lazily loaded
    model live in an explicit state that is threaded through the calls. *)

From Stdlib Require Import ZArith NArith Ascii String DecimalString Lia Bool.
From stdpp Require Import base option list gmap.

Local Open Scope N_scope.

(** ** Python strings *)

Module PyStr.

Abbreviation str := (list N).

(** A literal: the code points of an ASCII string. *)
Definition lit (s : string) : str :=
  List.map N_of_ascii (list_ascii_of_string s).

Definition NL : N := 10.
Definition HASH : N := 35.

(** [str.isspace] for one code point; the same table decides [\s] in
    [re] patterns over [str]. *)
Definition isspace (c : N) : bool :=
  ((9 <=? c) && (c <=? 13)) || ((28 <=? c) && (c <=? 32))
  || (c =? 133) || (c =? 160) || (c =? 5760)
  || ((8192 <=? c) && (c <=? 8202))
  || (c =? 8232) || (c =? 8233) || (c =? 8239) || (c =? 8287)
  || (c =? 12288).

Fixpoint lstrip (s : str) : str :=
  match s with
  | c :: s' => if isspace c then lstrip s' else s
  | [] => []
  end.

Definition rstrip (s : str) : str := rev (lstrip (rev s)).

(** [s.strip()] *)
Definition strip (s : str) : str := rstrip (lstrip s).

(** Truth value of a string in a condition: non-empty. *)
Definition truthy (s : str) : bool :=
  match s with [] => false | _ :: _ => true end.

(** [s.split(sep)] for a one-character separator. *)
Fixpoint split (sep : N) (s : str) : list str :=
  match s with
  | [] => [[]]
  | c :: s' =>
      if c =? sep then [] :: split sep s'
      else match split sep s' with
           | l :: ls => (c :: l) :: ls
           | [] => [[c]]
           end
  end.

(** [sep.join(parts)] *)
Fixpoint join (sep : str) (parts : list str) : str :=
  match parts with
  | [] => []
  | [p] => p
  | p :: ps => p ++ sep ++ join sep ps
  end.

(** [s.startswith(p)] *)
Fixpoint startswith {A} (eqb : A -> A -> bool) (p s : list A) : bool :=
  match p, s with
  | [], _ => true
  | a :: p', b :: s' => eqb a b && startswith eqb p' s'
  | _ :: _, [] => false
  end.

(** [needle in hay] *)
Fixpoint contains (needle hay : str) : bool :=
  startswith N.eqb needle hay
  || match hay with
     | [] => false
     | _ :: hay' => contains needle hay'
     end.

(** [s.lower()], on the ASCII letters.  [parse_pdf] uses it for a search
    for the ASCII words "too large" and "too many pages" in the lowered
    text; no code point outside A-Z lowers to one of their letters, so
    the search result is the one Python computes for any text.  On text
    with other letters [str.lower] does more; where the program lowers
    such text (the parser type of the service) the full function is a
    parameter. *)
Definition lower_char (c : N) : N :=
  if (65 <=? c) && (c <=? 90) then c + 32 else c.
Definition lower (s : str) : str := List.map lower_char s.

(** [str(n)] for an integer. *)
Definition str_of_Z (z : Z) : str :=
  lit (DecimalString.NilZero.string_of_int (Z.to_int z)).

(** Length of the longest prefix whose characters satisfy [p]. *)
Fixpoint span (p : N -> bool) (s : str) : nat :=
  match s with
  | c :: s' => if p c then S (span p s') else 0%nat
  | [] => 0%nat
  end.

End PyStr.
Import PyStr.

(** ** The header pattern *)

Module Re.

(** Greedy repetition with backtracking: the continuation [k] is tried on
    [lo + d], [lo + d - 1], ..., [lo] repetitions; the first success wins. *)
Fixpoint try_down {A} (lo d : nat) (k : nat -> option A) : option A :=
  match k (lo + d)%nat with
  | Some r => Some r
  | None =>
      match d with
      | O => None
      | S d' => try_down lo d' k
      end
  end.

(** [greedy p lo hi s k]: between [lo] and [hi] characters satisfying [p]
    at the start of [s], as many as possible first. *)
Definition greedy {A} (p : N -> bool) (lo : nat) (hi : option nat) (s : str)
    (k : nat -> option A) : option A :=
  let avail := span p s in
  let top := match hi with Some h => Nat.min h avail | None => avail end in
  if (top <? lo)%nat then None else try_down lo (top - lo) k.

(** [$] without MULTILINE: at the end, or just before a final newline. *)
Definition at_end (s : str) : bool :=
  match s with
  | [] => true
  | [c] => c =? NL
  | _ => false
  end.

(** [re.match(r'^(#{1,6})\s+(.+)$', line)]; the result holds
    [group(1)] and [group(2)]. *)
Definition header_match (line : str) : option (str * str) :=
  greedy (N.eqb HASH) 1 (Some 6%nat) line (fun i =>
    let r1 := drop i line in
    greedy isspace 1 None r1 (fun j =>
      let r2 := drop j r1 in
      greedy (fun c => negb (c =? NL)) 1 None r2 (fun m =>
        if at_end (drop m r2) then Some (take i line, take m r2) else None))).

End Re.
Import Re.

(** ** Sections *)

(** Modelled from the spec: the [PaperSection] schema class
    ([src/schemas/pdf_parser/models.py] is not part of the sources); the
    spec gives it as a record of title, content and level. *)
Record PaperSection := mkPaperSection {
  title : str;
  content : str;
  level : Z
}.

Module Segmenter.

(** The dict [current_section]: the key "level" is absent in the initial
    dict and present in every dict made for a header. *)
Record Current := mkCurrent {
  cur_title : str;
  cur_content : str;
  cur_level : option Z
}.

(** The loop state: the list [sections] and [current_section]. *)
Record State := mkState {
  sections : list PaperSection;
  current_section : Current
}.

Definition default_title : str := lit "Content".

Definition init : State :=
  mkState [] (mkCurrent default_title [] None).

(** The [if current_section["content"].strip(): sections.append(...)]
    before a new header: note the constant [level=1]. *)
Definition save_previous (st : State) : list PaperSection :=
  let cur := current_section st in
  if truthy (strip (cur_content cur))
  then sections st ++ [mkPaperSection (cur_title cur) (strip (cur_content cur)) 1]
  else sections st.

(** One iteration of [for line in lines]. *)
Definition step (st : State) (line : str) : State :=
  match header_match line with
  | Some (g1, g2) =>
      let header_level := Z.of_nat (length g1) in
      let section_title := strip g2 in
      mkState (save_previous st) (mkCurrent section_title [] (Some header_level))
  | None =>
      if truthy (strip line)
      then let cur := current_section st in
           mkState (sections st)
             (mkCurrent (cur_title cur) (cur_content cur ++ line ++ [NL]) (cur_level cur))
      else st
  end.

(** The [# Add final section] block: [current_section.get("level", 1)]. *)
Definition finish (st : State) : list PaperSection :=
  let cur := current_section st in
  if truthy (strip (cur_content cur))
  then sections st ++
       [mkPaperSection (cur_title cur) (strip (cur_content cur))
          (default 1%Z (cur_level cur))]
  else sections st.

Definition run (st : State) (lines : list str) : State :=
  fold_left step lines st.

(** [DeepSeekParser._parse_markdown_to_sections] *)
Definition _parse_markdown_to_sections (markdown_text : str) : list PaperSection :=
  finish (run init (split NL markdown_text)).

End Segmenter.
Import Segmenter.

(** ** Vocabulary for statements about the segmenter *)

Module SegSpec.

(** A line or text made of whitespace only: [not s.strip()]. *)
Definition blank (s : str) : bool := forallb isspace s.

Definition is_header (line : str) : bool :=
  match header_match line with Some _ => true | None => false end.

(** The lines the loop appends to a content: neither header nor blank. *)
Definition content_line (line : str) : bool :=
  negb (is_header line) && negb (blank line).

(** What the loop builds from a run of appended lines. *)
Definition accumulate (ls : list str) : str :=
  concat (List.map (fun l => l ++ [NL]) ls).

(** The sections the input opens, in input order: the implicit one with
    title [t] and the lines [body] appended so far, then one per header
    line, each with the lines appended under it. *)
Fixpoint opened (t : str) (body : list str) (lines : list str)
    : list (str * list str) :=
  match lines with
  | [] => [(t, body)]
  | l :: ls =>
      match header_match l with
      | Some (_, g2) => (t, body) :: opened (strip g2) [] ls
      | None => opened t (if blank l then body else body ++ [l]) ls
      end
  end.

(** Title and trimmed content of every opened section, in input order. *)
Definition in_input_order (text : str) : list (str * str) :=
  List.map (fun b => (b.1, strip (accumulate b.2)))
    (opened default_title [] (split NL text)).

Definition title_content (s : PaperSection) : str * str := (title s, content s).

(** ["# " + title + "\n" + content] *)
Definition as_block (s : PaperSection) : str :=
  lit "# " ++ title s ++ [NL] ++ content s.

(** The blocks of a sequence of sections, concatenated. *)
Definition rebuild_concat (secs : list PaperSection) : str :=
  concat (List.map as_block secs).

(** The blocks of a sequence of sections, one per line group. *)
Definition rebuild_lines (secs : list PaperSection) : str :=
  join [NL] (List.map as_block secs).

(** A title as a header line yields it: non-empty, trimmed, on one line. *)
Definition header_title (t : str) : Prop :=
  t <> [] /\ strip t = t /\ Forall (fun c => c <> NL) t.

(** A content as the segmenter yields it and that reads back unchanged:
    non-empty, trimmed, and every line of it a content line. *)
Definition plain_content (c : str) : Prop :=
  c <> [] /\ strip c = c /\ Forall (fun l => content_line l = true) (split NL c).

(** A text with a first and a last character that are not whitespace. *)
Definition tight (m : str) : Prop :=
  (exists c x, m = c :: x /\ isspace c = false)
  /\ (exists y c, m = y ++ [c] /\ isspace c = false).

Definition level_in_range (z : Z) : Prop := (1 <= z <= 6)%Z.

(** The lines of a block. *)
Definition block_lines (s : PaperSection) : list str :=
  (lit "# " ++ title s) :: split NL (content s).

(** A section that reads back from its block. *)
Definition reads_back (s : PaperSection) : Prop :=
  header_title (title s) /\ plain_content (content s) /\ level s = 1%Z.

(** The claim read literally: contents concatenated give back the input
    without its header lines. *)
Definition without_header_lines (text : str) : str :=
  join [NL] (List.filter (fun l => negb (is_header l)) (split NL text)).

End SegSpec.
Import SegSpec.

(** ** Sample inputs *)

Module Samples.

(** ["## A\nfoo\n# B\nbar"] *)
Definition text_two_levels : str :=
  lit "## A" ++ [NL] ++ lit "foo" ++ [NL] ++ lit "# B" ++ [NL] ++ lit "bar".

(** ["# A\nfoo\n# B\nbar"] *)
Definition text_two_sections : str :=
  lit "# A" ++ [NL] ++ lit "foo" ++ [NL] ++ lit "# B" ++ [NL] ++ lit "bar".

(** ["a\n\nb"] *)
Definition text_with_blank_line : str := lit "a" ++ [NL; NL] ++ lit "b".

Definition sec_A : PaperSection := mkPaperSection (lit "A") (lit "foo") 1.
Definition sec_B : PaperSection := mkPaperSection (lit "B") (lit "bar") 1.

End Samples.
Import Samples.

(** ** Exceptions and effects *)

Module Py.

(** The exception classes the two modules raise or catch.
    [src/exceptions.py] is not part of the sources; what matters here is
    that [PDFValidationError] and [PDFParsingException] are exception
    classes told apart by the [except] clauses, and that no other
    exception is an instance of [PDFValidationError]. *)
Inductive exn :=
| PDFValidationError (msg : str)
| PDFParsingException (msg : str)
| ValueError (msg : str)
| OtherException (msg : str).

(** [str(e)] *)
Definition exn_msg (e : exn) : str :=
  match e with
  | PDFValidationError m | PDFParsingException m
  | ValueError m | OtherException m => m
  end.

(** [type(e)] *)
Inductive exn_class := CValidation | CParsing | CValue | COther.
Definition class_of (e : exn) : exn_class :=
  match e with
  | PDFValidationError _ => CValidation
  | PDFParsingException _ => CParsing
  | ValueError _ => CValue
  | OtherException _ => COther
  end.

Inductive outcome (A : Type) :=
| Return (a : A)
| Raise (e : exn).
Arguments Return {A} a.
Arguments Raise {A} e.

(** The result of a call into an external collaborator: a value, or a
    failure with the text of the exception it raised. *)
Inductive ext (A : Type) :=
| Ok (a : A)
| Fails (msg : str).
Arguments Ok {A} a.
Arguments Fails {A} msg.

(** Computations over a state [S] that return or raise. *)
Definition M (S A : Type) : Type := S -> outcome A * S.

Definition ret {S A} (a : A) : M S A := fun s => (Return a, s).
Definition raise {S A} (e : exn) : M S A := fun s => (Raise e, s).
Definition bind {S A B} (m : M S A) (k : A -> M S B) : M S B :=
  fun s => match m s with
           | (Return a, s') => k a s'
           | (Raise e, s') => (Raise e, s')
           end.
Definition get {S} : M S S := fun s => (Return s, s).
Definition modify {S} (f : S -> S) : M S unit := fun s => (Return tt, f s).

(** [try: body / except Exception as e: handler e]; the handler picks the
    clause by the class of [e]. *)
Definition try_except {S A} (body : M S A) (handler : exn -> M S A) : M S A :=
  fun s => match body s with
           | (Return a, s') => (Return a, s')
           | (Raise e, s') => handler e s'
           end.

(** [try: body / finally: cleanup] *)
Definition try_finally {S A} (body : M S A) (cleanup : M S unit) : M S A :=
  fun s => match body s with
           | (r, s') =>
               match cleanup s' with
               | (Return _, s'') => (r, s'')
               | (Raise e, s'') => (Raise e, s'')
               end
           end.

(** [if cond: stmt] *)
Definition when_ {S} (cond : bool) (stmt : M S unit) : M S unit :=
  if cond then stmt else ret tt.

(** A call into an external collaborator. *)
Definition call {S A} (r : ext A) : M S A :=
  match r with
  | Ok a => ret a
  | Fails msg => raise (OtherException msg)
  end.

(** The state after [m], from any state in [P], is in [Q]; whatever [m]
    returns or raises. *)
Definition post_state {S A} (P : S -> Prop) (m : M S A) (Q : S -> Prop) : Prop :=
  forall s, P s -> Q (m s).2.

(** From every state, the outcome of [m] is in [Q]. *)
Definition yields {S A} (m : M S A) (Q : outcome A -> Prop) : Prop :=
  forall s, Q (m s).1.

(** [m] leaves the state as it is. *)
Definition stateless {S A} (m : M S A) : Prop :=
  forall s, (m s).2 = s.

End Py.
Import Py.

Notation "x <- m ;; k" := (bind m (fun x => k))
  (at level 100, m at next level, right associativity).
Notation "m ;;; k" := (bind m (fun _ => k))
  (at level 100, right associativity).

(** ** The world outside the parser *)

(** What one document and the external libraries answer during a call. *)
Record Env := mkEnv {
  pdf_path : str;                     (* str(pdf_path) *)
  pdf_name : str;                     (* pdf_path.name *)
  path_exists : ext bool;             (* pdf_path.exists() *)
  stat_st_size : ext Z;               (* pdf_path.stat().st_size *)
  read_header : ext (list Byte.byte); (* open(pdf_path, "rb").read(8) *)
  pdfium_len : ext Z;                 (* len(pdfium.PdfDocument(str(pdf_path))) *)
  render_save : nat -> ext unit;      (* pdf_doc[n].render(scale=2.0).to_pil().save(...) *)
  tokenizer_from_pretrained : ext unit;
  model_from_pretrained : ext unit;
  model_to_device : ext unit;         (* .eval().cuda().to(...) or .eval().to(...) *)
  mkdtemp : ext unit;                 (* tempfile.mkdtemp(prefix=...) *)
  infer : nat -> Z -> Z -> ext str;   (* self._model.infer(...) on page n *)
  temp_dir_exists : ext unit;         (* temp_dir.exists(): answers, or raises *)
  shutil_rmtree : ext unit            (* shutil.rmtree(temp_dir) *)
}.

(** The mutable state: the temporary directories with the page images in
    them, and the memoised fields [_model] and [_tokenizer]. *)
Record World := mkWorld {
  tmpfs : gmap positive (gset nat);
  _tokenizer : bool;
  _model : bool
}.

Definition set_tmpfs (f : gmap positive (gset nat) -> gmap positive (gset nat))
    (w : World) : World :=
  mkWorld (f (tmpfs w)) (_tokenizer w) (_model w).

(** ** Result records *)

Inductive ParserType := DOCLING | DEEPSEEK.

Inductive MetaValue :=
| MStr (s : str)
| MInt (z : Z).

(** Modelled from the spec: the [PdfContent] schema class
    ([src/schemas/pdf_parser/models.py] is not part of the sources), with
    the fields the constructor call names.  Figures, tables and
    references are always empty here. *)
Record PdfContent := mkPdfContent {
  pc_sections : list PaperSection;
  figures : list Empty_set;
  tables : list Empty_set;
  raw_text : str;
  references : list Empty_set;
  parser_used : ParserType;
  metadata : list (str * MetaValue)
}.

(** ** The vision backend *)

Module DeepSeek.

Record DeepSeekParser := mkDeepSeekParser {
  max_pages : Z;
  max_file_size_bytes : Z;
  model_name : str;
  resolution : str
}.

(** [self.resolution_config]: resolution name to (base_size, image_size). *)
Definition resolution_config : gmap str (Z * Z) :=
  list_to_map
    [ (lit "tiny", (512, 512)%Z); (lit "small", (640, 640)%Z);
      (lit "base", (1024, 640)%Z); (lit "large", (1280, 640)%Z) ].

(** [DeepSeekParser.__init__] *)
Definition __init__ (max_pages max_file_size_mb : Z) (model_name resolution : str)
    : outcome DeepSeekParser :=
  match resolution_config !! resolution with
  | None =>
      Raise (ValueError
        (lit "Invalid resolution: " ++ resolution
         ++ lit ". Must be one of ['tiny', 'small', 'base', 'large']"))
  | Some _ =>
      Return (mkDeepSeekParser max_pages (max_file_size_mb * 1024 * 1024)%Z
                model_name resolution)
  end.

(** The file signature [b"%PDF-"]. *)
Definition pdf_magic : list Byte.byte :=
  [Byte.x25; Byte.x50; Byte.x44; Byte.x46; Byte.x2d].

(** A temporary directory and the image files it holds. *)
Abbreviation image_path := (positive * nat)%type.

(** Local variables of [parse_pdf] next to the world. *)
Record Frame := mkFrame {
  world : World;
  temp_dir : option positive
}.

Definition lift {A} (m : M World A) : M Frame A :=
  fun f => match m (world f) with
           | (r, w') => (r, mkFrame w' (temp_dir f))
           end.

Section WithFormat.

(** The rendering [f"{n / 1024 / 1024:.1f}"] of a byte count: floating
    point division and rounding, left open. *)
Variable format_mb : Z -> str.

(** [DeepSeekParser._validate_pdf] *)
Definition _validate_pdf {S} (self : DeepSeekParser) (env : Env) : M S bool :=
  try_except
    (size0 <- call (stat_st_size env) ;;
     when_ (size0 =? 0)%Z
       (raise (PDFValidationError (lit "PDF file is empty: " ++ pdf_path env))) ;;;
     file_size <- call (stat_st_size env) ;;
     when_ (file_size >? max_file_size_bytes self)%Z
       (raise (PDFValidationError
          (lit "PDF file too large: " ++ format_mb file_size ++ lit "MB > "
           ++ format_mb (max_file_size_bytes self) ++ lit "MB"))) ;;;
     header <- call (read_header env) ;;
     when_ (negb (startswith Byte.eqb pdf_magic header))
       (raise (PDFValidationError
          (lit "File does not have PDF header: " ++ pdf_path env))) ;;;
     actual_pages <- call (pdfium_len env) ;;
     when_ (actual_pages >? max_pages self)%Z
       (raise (PDFValidationError
          (lit "PDF has too many pages: " ++ str_of_Z actual_pages ++ lit " > "
           ++ str_of_Z (max_pages self)))) ;;;
     ret true)
    (fun e =>
       match e with
       | PDFValidationError _ => raise e
       | _ => raise (PDFValidationError
                (lit "Error validating PDF " ++ pdf_path env ++ lit ": " ++ exn_msg e))
       end).

End WithFormat.

(** [DeepSeekParser._lazy_load_model] *)
Definition _lazy_load_model (env : Env) : M World unit :=
  w <- get ;;
  if _model w then ret tt
  else
    call (tokenizer_from_pretrained env) ;;;
    modify (fun w => mkWorld (tmpfs w) true (_model w)) ;;;
    call (model_from_pretrained env) ;;;
    modify (fun w => mkWorld (tmpfs w) (_tokenizer w) true) ;;;
    call (model_to_device env).

(** [tempfile.mkdtemp]: a new, empty directory under a name not in use. *)
Definition do_mkdtemp (env : Env) : M World positive :=
  call (mkdtemp env) ;;;
  w <- get ;;
  let d := fresh (dom (tmpfs w)) in
  modify (set_tmpfs (insert d ∅)) ;;;
  ret d.

(** [pil_image.save(image_path)] *)
Definition save_image (p : image_path) : World -> World :=
  set_tmpfs (alter (fun files => {[ p.2 ]} ∪ files) p.1).

(** [shutil.rmtree(temp_dir)]: the directory and all files in it go, or
    the call raises and the directory stays. *)
Definition rmtree (env : Env) (d : positive) : M World unit :=
  call (shutil_rmtree env) ;;;
  modify (set_tmpfs (delete d)).

(** [output_dir.mkdir(parents=True, exist_ok=True)]: makes the directory
    when it is not there, and leaves one that is there as it is. *)
Definition mkdir_exist_ok (d : positive) : World -> World :=
  set_tmpfs (fun m => match m !! d with Some _ => m | None => <[d := ∅]> m end).

(** The [for page_num in range(num_pages)] loop. *)
Fixpoint render_pages (env : Env) (output_dir : positive) (page_nums : list nat)
    (image_paths : list image_path) : M World (list image_path) :=
  match page_nums with
  | [] => ret image_paths
  | page_num :: rest =>
      call (render_save env page_num) ;;;
      modify (save_image (output_dir, page_num)) ;;;
      render_pages env output_dir rest (image_paths ++ [(output_dir, page_num)])
  end.

(** [DeepSeekParser._extract_pages_as_images]; closing the document
    changes nothing. *)
Definition _extract_pages_as_images (self : DeepSeekParser) (env : Env)
    (output_dir : positive) : M World (list image_path) :=
  doc_len <- call (pdfium_len env) ;;
  let num_pages := Z.min doc_len (max_pages self) in
  modify (mkdir_exist_ok output_dir) ;;;
  render_pages env output_dir (seq 0 (Z.to_nat num_pages)) [].

(** [DeepSeekParser._extract_text_from_image_file] *)
Definition _extract_text_from_image_file {S} (self : DeepSeekParser) (env : Env)
    (image : image_path) : M S str :=
  config <- match resolution_config !! resolution self with
            | Some c => ret c
            | None => raise (OtherException (lit "KeyError"))
            end ;;
  try_except
    (call (infer env image.2 config.1 config.2))
    (fun _ => ret []).

(** The [for image_path in image_paths] loop. *)
Fixpoint ocr_pages {S} (self : DeepSeekParser) (env : Env)
    (image_paths : list image_path) (all_text : list str) : M S (list str) :=
  match image_paths with
  | [] => ret all_text
  | image :: rest =>
      page_text <- _extract_text_from_image_file self env image ;;
      ocr_pages self env rest (all_text ++ [page_text])
  end.

Section WithFormat.

Variable format_mb : Z -> str.

(** The [try] block of [parse_pdf]. *)
Definition parse_body (self : DeepSeekParser) (env : Env)
    : M Frame (option PdfContent) :=
  _validate_pdf format_mb self env ;;;
  lift (_lazy_load_model env) ;;;
  d <- lift (do_mkdtemp env) ;;
  modify (fun f => mkFrame (world f) (Some d)) ;;;
  image_paths <- lift (_extract_pages_as_images self env d) ;;
  when_ (bool_decide (image_paths = []))
    (raise (PDFParsingException (lit "No images extracted from PDF: " ++ pdf_path env))) ;;;
  all_text <- ocr_pages self env image_paths [] ;;
  let full_markdown := join [NL; NL] all_text in
  let sections := _parse_markdown_to_sections full_markdown in
  ret (Some (mkPdfContent sections [] [] full_markdown [] DEEPSEEK
         [ (lit "source", MStr (lit "deepseek-ocr"));
           (lit "model", MStr (model_name self));
           (lit "resolution", MStr (resolution self));
           (lit "pages_processed", MInt (Z.of_nat (length image_paths))) ])).

(** The two [except] clauses of [parse_pdf]. *)
Definition parse_handler (e : exn) : M Frame (option PdfContent) :=
  match e with
  | PDFValidationError msg =>
      let error_msg := lower msg in
      if contains (lit "too large") error_msg
         || contains (lit "too many pages") error_msg
      then ret None
      else raise e
  | _ => raise (PDFParsingException
           (lit "Failed to parse PDF with DeepSeek OCR: " ++ exn_msg e))
  end.

(** The [finally] block of [parse_pdf]: nothing in it is caught. *)
Definition parse_cleanup (env : Env) : M Frame unit :=
  f <- get ;;
  match temp_dir f with
  | Some d =>
      call (temp_dir_exists env) ;;;
      if bool_decide (is_Some (tmpfs (world f) !! d))
      then lift (rmtree env d)
      else ret tt
  | None => ret tt
  end.

(** [DeepSeekParser.parse_pdf] *)
Definition parse_pdf (self : DeepSeekParser) (env : Env)
    : M World (option PdfContent) :=
  fun w =>
    match try_finally (try_except (parse_body self env) parse_handler)
            (parse_cleanup env) (mkFrame w None) with
    | (r, f) => (r, world f)
    end.

End WithFormat.

(** The rendering [f"{n / 1024 / 1024:.1f}"] worked out on integers: for
    [|n| < 2^53] both divisions are exact, and the format rounds the exact
    quotient to one decimal, ties to even. *)
Definition format_mb_exact (n : Z) : str :=
  let a := (Z.abs n * 10)%Z in
  let b := (1024 * 1024)%Z in
  let q := (a / b)%Z in
  let r := (a mod b)%Z in
  let tenths :=
    if (2 * r <? b)%Z then q
    else if (b <? 2 * r)%Z then (q + 1)%Z
    else if Z.even q then q else (q + 1)%Z in
  (if (n <? 0)%Z then lit "-" else [])
  ++ str_of_Z (tenths / 10) ++ lit "." ++ str_of_Z (tenths mod 10).

End DeepSeek.

(** ** Vocabulary for statements about the temporary directory *)

Module Scope.
Import DeepSeek.

(** No directory of the call exists: the directories are the ones, [m0],
    that existed when the call began. *)
Definition no_temp_dir (m0 : gmap positive (gset nat)) (f : Frame) : Prop :=
  temp_dir f = None /\ tmpfs (world f) = m0.

(** The call holds the new directory [d], and nothing else has changed. *)
Definition owns_temp_dir (m0 : gmap positive (gset nat)) (d : positive)
    (f : Frame) : Prop :=
  temp_dir f = Some d /\ m0 !! d = None /\ delete d (tmpfs (world f)) = m0.

Definition scoped (m0 : gmap positive (gset nat)) (f : Frame) : Prop :=
  no_temp_dir m0 f \/ exists d, owns_temp_dir m0 d f.

End Scope.
Import Scope.

(** ** The service *)

Module Service.

(** A layout backend, by the arguments it was made with
    ([src/services/pdf_parser/docling.py] is not part of the sources). *)
Record DoclingParser := mkDoclingParser {
  d_max_pages : Z;
  d_max_file_size_mb : Z;
  do_ocr : bool;
  do_table_structure : bool
}.

Inductive Parser :=
| UseDeepSeek (p : DeepSeek.DeepSeekParser)
| UseDocling (p : DoclingParser).

Record PDFParserService := mkService {
  parser_type : str;
  parser : Parser
}.

Section WithLibraries.

(** [str.lower] on any text: the full case mapping of Python, left
    open. *)
Variable str_lower : str -> str.

(** The constructor [DoclingParser(...)], whose source is not available:
    it returns a parser or raises. *)
Variable DoclingParser_init : Z -> Z -> bool -> bool -> outcome DoclingParser.

(** [PDFParserService.__init__] *)
Definition __init__ (parser_type : str) (max_pages max_file_size_mb : Z)
    (do_ocr do_table_structure : bool) (deepseek_model deepseek_resolution : str)
    : outcome PDFParserService :=
  let pt := str_lower parser_type in
  if bool_decide (pt = lit "deepseek") then
    match DeepSeek.__init__ max_pages max_file_size_mb deepseek_model
            deepseek_resolution with
    | Return p => Return (mkService pt (UseDeepSeek p))
    | Raise e => Raise e
    end
  else if bool_decide (pt = lit "docling") then
    match DoclingParser_init max_pages max_file_size_mb do_ocr
            do_table_structure with
    | Return p => Return (mkService pt (UseDocling p))
    | Raise e => Raise e
    end
  else Raise (ValueError
         (lit "Unknown parser type: " ++ parser_type
          ++ lit ". Must be 'docling' or 'deepseek'")).

End WithLibraries.

Section WithBackends.

Variable format_mb : Z -> str.

(** [DoclingParser.parse_pdf], whose source is not available: any
    computation of the right type. *)
Variable docling_parse_pdf : DoclingParser -> Env -> M World (option PdfContent).

(** [await self.parser.parse_pdf(pdf_path)] *)
Definition backend_parse_pdf (self : PDFParserService) (env : Env)
    : M World (option PdfContent) :=
  match parser self with
  | UseDeepSeek p => DeepSeek.parse_pdf format_mb p env
  | UseDocling p => docling_parse_pdf p env
  end.

(** [PDFParserService.parse_pdf].  A [PdfContent] object is true in a
    condition; [None] is false. *)
Definition parse_pdf (self : PDFParserService) (env : Env)
    : M World (option PdfContent) :=
  there <- call (path_exists env) ;;
  when_ (negb there)
    (raise (PDFValidationError (lit "PDF file not found: " ++ pdf_path env))) ;;;
  try_except
    (result <- backend_parse_pdf self env ;;
     match result with
     | Some _ => ret result
     | None =>
         raise (PDFParsingException
           (parser_type self ++ lit " parsing returned no result for " ++ pdf_name env))
     end)
    (fun e =>
       match e with
       | PDFValidationError _ | PDFParsingException _ => raise e
       | _ => raise (PDFParsingException
                (parser_type self ++ lit " parsing error for " ++ pdf_name env
                 ++ lit ": " ++ exn_msg e))
       end).

End WithBackends.

End Service.

(** ** Sample documents *)

Module Docs.
Import DeepSeek.

Definition world0 : World := mkWorld ∅ false false.

(** The parser with the default limits: 30 pages, 20 MB. *)
Definition parser0 : DeepSeekParser :=
  mkDeepSeekParser 30 (20 * 1024 * 1024) (lit "deepseek-ai/DeepSeek-OCR") (lit "base").

Definition service0 : Service.PDFParserService :=
  Service.mkService (lit "deepseek") (Service.UseDeepSeek parser0).

(** A layout backend that always returns nothing. *)
Definition docling0 (p : Service.DoclingParser) (env : Env)
    : M World (option PdfContent) := ret None.

(** A well-formed document of [pages] pages and [size] bytes, on which
    every external call succeeds and the OCR model answers [answer]. *)
Definition doc (path name : str) (size pages : Z) (answer : nat -> ext str) : Env :=
  mkEnv path name (Ok true) (Ok size) (Ok pdf_magic) (Ok pages) (fun _ => Ok tt)
    (Ok tt) (Ok tt) (Ok tt) (Ok tt) (fun n _ _ => answer n) (Ok tt) (Ok tt).

(** A path with no file behind it. *)
Definition env_missing : Env :=
  mkEnv (lit "/tmp/missing.pdf") (lit "missing.pdf") (Ok false)
    (Fails (lit "No such file")) (Fails (lit "No such file"))
    (Fails (lit "No such file")) (fun _ => Fails (lit "No such file"))
    (Ok tt) (Ok tt) (Ok tt) (Ok tt) (fun _ _ _ => Fails (lit "No such file"))
    (Ok tt) (Ok tt).

(** A small text file named like a PDF. *)
Definition env_bad_header : Env :=
  mkEnv (lit "/tmp/notes.pdf") (lit "notes.pdf") (Ok true) (Ok 5%Z)
    (Ok [Byte.x68; Byte.x65; Byte.x6c; Byte.x6c; Byte.x6f])
    (Fails (lit "Failed to load document")) (fun _ => Fails (lit "no page"))
    (Ok tt) (Ok tt) (Ok tt) (Ok tt) (fun _ _ _ => Fails (lit "no image"))
    (Ok tt) (Ok tt).

(** A 3-page document one byte over 21 MB. *)
Definition env_oversize : Env :=
  doc (lit "/tmp/big.pdf") (lit "big.pdf") (21 * 1024 * 1024 + 1) 3
    (fun _ => Ok (lit "text")).

(** A 2-page, 50 KB document on which inference fails on the first page
    and returns the empty string on the second. *)
Definition env_unreadable : Env :=
  doc (lit "/tmp/scan.pdf") (lit "scan.pdf") 51200 2
    (fun n => match n with O => Fails (lit "CUDA out of memory") | _ => Ok [] end).

(** A 2-page, 50 KB document with text on both pages. *)
Definition env_paper : Env :=
  doc (lit "/tmp/paper.pdf") (lit "paper.pdf") 51200 2
    (fun n => match n with
              | O => Ok (lit "# Title" ++ [NL] ++ lit "Abstract text")
              | _ => Ok (lit "## Method" ++ [NL] ++ lit "We parse.")
              end).

(** The document of [env_paper] when its temporary directory cannot be
    removed. *)
Definition env_locked : Env :=
  mkEnv (lit "/tmp/paper.pdf") (lit "paper.pdf") (Ok true) (Ok 51200%Z)
    (Ok pdf_magic) (Ok 2%Z) (fun _ => Ok tt) (Ok tt) (Ok tt) (Ok tt) (Ok tt)
    (fun n _ _ => match n with
                  | O => Ok (lit "# Title" ++ [NL] ++ lit "Abstract text")
                  | _ => Ok (lit "## Method" ++ [NL] ++ lit "We parse.")
                  end)
    (Ok tt) (Fails (lit "Permission denied")).

(** The constructor of the layout backend in the samples: it keeps its
    arguments. *)
Definition docling_init0 (max_pages max_file_size_mb : Z)
    (do_ocr do_table_structure : bool) : outcome Service.DoclingParser :=
  Return (Service.mkDoclingParser max_pages max_file_size_mb do_ocr
            do_table_structure).

(** An answer of the OCR model without text: a failure or the empty
    string. *)
Definition no_text (r : ext str) : Prop :=
  match r with
  | Ok s => s = []
  | Fails _ => True
  end.

(** What [parse_pdf] returns for [pages] pages without any text. *)
Definition empty_content (self : DeepSeekParser) (pages : Z) : PdfContent :=
  mkPdfContent [] [] [] (join [NL; NL] (replicate (Z.to_nat pages) [])) []
    DEEPSEEK
    [ (lit "source", MStr (lit "deepseek-ocr"));
      (lit "model", MStr (model_name self));
      (lit "resolution", MStr (resolution self));
      (lit "pages_processed", MInt pages) ].

End Docs.
Import Docs.

(** ** Vocabulary for further statements *)

Module More.
Import DeepSeek.

(** A header line read in one pass, without backtracking: the number of
    markers at the start, then the rest of the line, which must begin with
    whitespace and have at least two characters.  The result is the
    depth and the title. *)
Definition header_scan (line : str) : option (nat * str) :=
  let k := span (N.eqb HASH) line in
  let r := drop k line in
  if (1 <=? k)%nat && (k <=? 6)%nat && (1 <=? span isspace r)%nat
     && (2 <=? length r)%nat
  then Some (k, strip r)
  else None.

(** What [header_match] gives to the loop: depth and title. *)
Definition header_of (line : str) : option (nat * str) :=
  (fun g => (length g.1, strip g.2)) <$> header_match line.

(** The text [_extract_text_from_image_file] returns for page [n]. *)
Definition page_text (env : Env) (cfg : Z * Z) (n : nat) : str :=
  match infer env n cfg.1 cfg.2 with
  | Ok t => t
  | Fails _ => []
  end.

(** What [parse_pdf] returns for the raw text [full] of [pages] pages. *)
Definition content_of (self : DeepSeekParser) (full : str) (pages : Z)
    : PdfContent :=
  mkPdfContent (_parse_markdown_to_sections full) [] [] full [] DEEPSEEK
    [ (lit "source", MStr (lit "deepseek-ocr"));
      (lit "model", MStr (model_name self));
      (lit "resolution", MStr (resolution self));
      (lit "pages_processed", MInt pages) ].

(** The classes of exception the parsers let out. *)
Definition parser_error (e : exn) : Prop :=
  class_of e = CValidation \/ class_of e = CParsing.

End More.
Import More.

(** ** The download script *)

Module Download.

(** [requests.Response]: what [raise_for_status()] does, and [content]. *)
Record Response := mkResponse {
  raise_for_status : ext unit;
  response_content : list Byte.byte
}.

(** What the network and the operating system answer during a call. *)
Record Net := mkNet {
  mkdir : ext unit;                    (* output_dir.mkdir(parents=True, exist_ok=True) *)
  requests_get : str -> ext Response;  (* requests.get(pdf_url, timeout=30) *)
  open_wb : ext unit;                  (* open(output_path, "wb") *)
  write : ext unit                     (* f.write(response.content) *)
}.

(** [arxiv_id.split("v")[0]] *)
Definition clean_id (arxiv_id : str) : str :=
  hd [] (split 118 arxiv_id).

Definition pdf_url (arxiv_id : str) : str :=
  lit "https://arxiv.org/pdf/" ++ arxiv_id ++ lit ".pdf".

Section WithPath.

(** [output_dir / name] of [pathlib], left open. *)
Variable joinpath : str -> str -> str.

(** [download_arxiv_pdf]; the state is the files on disk, by path.
    Opening a file for writing creates or empties it. *)
Definition download_arxiv_pdf (net : Net) (arxiv_id output_dir : str)
    : M (gmap str (list Byte.byte)) str :=
  call (mkdir net) ;;;
  let arxiv_id := clean_id arxiv_id in
  let url := pdf_url arxiv_id in
  let output_path := joinpath output_dir (arxiv_id ++ lit ".pdf") in
  disk <- get ;;
  if bool_decide (is_Some (disk !! output_path)) then ret output_path
  else
    try_except
      (response <- call (requests_get net url) ;;
       call (raise_for_status response) ;;;
       call (open_wb net) ;;;
       modify (insert output_path []) ;;;
       call (write net) ;;;
       modify (insert output_path (response_content response)) ;;;
       ret output_path)
      (fun e => raise e).

End WithPath.

End Download.

(** * Properties *)

(** ** Strings *)

Lemma isspace_NL : isspace NL = true.
Proof. reflexivity. Qed.

Lemma isspace_HASH : isspace HASH = false.
Proof. reflexivity. Qed.

Lemma lstrip_blank_app (a x : str) :
  blank a = true -> lstrip (a ++ x) = lstrip x.
Proof.
  induction a as [|c a IH]; simpl; [done|].
  intros [Hc Ha]%andb_prop. rewrite Hc. auto.
Qed.

Lemma lstrip_cases (s : str) :
  (blank s = true /\ lstrip s = [])
  \/ (exists a c x, s = a ++ c :: x /\ blank a = true /\ isspace c = false
                   /\ lstrip s = c :: x).
Proof.
  induction s as [|c s IH]; simpl; [by left|].
  destruct (isspace c) eqn:Hc; simpl.
  - destruct IH as [[Hb Hl]|(a & c' & x & -> & Ha & Hc' & Hl)].
    + by left.
    + right. exists (c :: a), c', x. simpl. by rewrite Hc, Ha.
  - right. by exists [], c, s.
Qed.

Lemma blank_app (a b : str) : blank (a ++ b) = blank a && blank b.
Proof. apply forallb_app. Qed.

Lemma blank_rev (a : str) : blank (rev a) = blank a.
Proof.
  induction a as [|c a IH]; simpl; [done|].
  rewrite blank_app, IH. simpl. rewrite andb_true_r. apply andb_comm.
Qed.

Lemma tight_not_blank (m : str) : tight m -> blank m = false.
Proof.
  intros [(c & x & -> & Hc) _]. simpl. by rewrite Hc.
Qed.

Lemma strip_spec (a m b : str) :
  blank a = true -> blank b = true -> tight m -> strip (a ++ m ++ b) = m.
Proof.
  intros Ha Hb [(c & x & Hm & Hc) (y & c' & Hm' & Hc')].
  unfold strip, rstrip. rewrite (lstrip_blank_app a) by done.
  assert (lstrip (m ++ b) = m ++ b) as ->.
  { rewrite Hm. simpl. by rewrite Hc. }
  rewrite rev_app_distr, lstrip_blank_app by (by rewrite blank_rev).
  rewrite Hm', rev_app_distr. simpl. rewrite Hc'.
  change (rev (c' :: rev y) = y ++ [c']). simpl. by rewrite rev_involutive.
Qed.

Lemma strip_cases (s : str) :
  (blank s = true /\ strip s = [])
  \/ (exists a b, s = a ++ strip s ++ b /\ blank a = true /\ blank b = true
                 /\ tight (strip s)).
Proof.
  destruct (lstrip_cases s) as [[Hb Hl]|(a & c & x & Hs & Ha & Hc & Hl)].
  - left. split; [done|]. unfold strip. by rewrite Hl.
  - right. unfold strip, rstrip. rewrite Hl.
    destruct (lstrip_cases (rev (c :: x)))
      as [[Hb _]|(a' & c' & y & Hr & Ha' & Hc' & Hl')].
    + rewrite blank_rev in Hb. simpl in Hb. by rewrite Hc in Hb.
    + rewrite Hl'.
      assert (c :: x = rev (c' :: y) ++ rev a') as Hcx.
      { rewrite <- rev_app_distr, <- Hr. by rewrite rev_involutive. }
      exists a, (rev a'). rewrite <- Hcx. split; [done|]. split; [done|].
      split; [by rewrite blank_rev|]. split.
      * simpl in *. destruct (rev y) as [|c0 y0] eqn:Hy; simpl in *.
        -- exists c', []. split; [done|]. done.
        -- exists c0, (y0 ++ [c']). split; [done|]. by inversion Hcx; subst.
      * exists (rev y), c'. simpl. done.
Qed.

Lemma truthy_strip (s : str) : truthy (strip s) = negb (blank s).
Proof.
  destruct (strip_cases s) as [[Hb ->]|(a & b & Hs & Ha & Hb & Ht)].
  - by rewrite Hb.
  - pose proof (tight_not_blank _ Ht) as Hnb.
    assert (blank s = false) as ->.
    { rewrite Hs, !blank_app, Hnb. by rewrite andb_false_r. }
    destruct Ht as [(c & x & -> & _) _]. done.
Qed.

Lemma strip_blank (s : str) : blank s = true -> strip s = [].
Proof.
  intros Hb. destruct (strip_cases s) as [[_ ->]|(a & b & Hs & _ & _ & Ht)]; [done|].
  pose proof (truthy_strip s) as H. rewrite Hb in H.
  destruct Ht as [(c & x & Hx & _) _]. rewrite Hx in H. done.
Qed.

Lemma strip_tight (s : str) : blank s = false -> tight (strip s).
Proof.
  intros Hb. destruct (strip_cases s) as [[Hb' _]|(a & b & _ & _ & _ & Ht)]; [congruence|done].
Qed.

Lemma strip_of_tight (m : str) : tight m -> strip m = m.
Proof.
  intros Ht. rewrite <- (strip_spec [] m []) at 2 by done. by rewrite app_nil_r.
Qed.

Lemma strip_idemp (s : str) : strip (strip s) = strip s.
Proof.
  destruct (strip_cases s) as [[_ ->]|(a & b & _ & _ & _ & Ht)]; [done|].
  by apply strip_of_tight.
Qed.

Lemma fixed_strip_tight (c : str) : c <> [] -> strip c = c -> tight c.
Proof.
  intros Hne Hc. rewrite <- Hc. apply strip_tight.
  destruct (blank c) eqn:Hb; [|done]. apply strip_blank in Hb. congruence.
Qed.

Lemma strip_app_NL (c : str) : c <> [] -> strip c = c -> strip (c ++ [NL]) = c.
Proof.
  intros Hne Hc. apply (strip_spec [] c [NL]); [done|done|].
  by apply fixed_strip_tight.
Qed.

(** ** Lines *)

Lemma split_nonempty (sep : N) (s : str) : split sep s <> [].
Proof.
  destruct s as [|c s]; simpl; [done|].
  destruct (c =? sep); [done|]. by destruct (split sep s).
Qed.

Lemma split_app (sep : N) (a b : str) :
  split sep (a ++ sep :: b) = split sep a ++ split sep b.
Proof.
  induction a as [|c a IH]; simpl.
  - by rewrite N.eqb_refl.
  - destruct (c =? sep); [by rewrite IH|].
    rewrite IH. destruct (split sep a) eqn:Ha; [|done].
    by apply split_nonempty in Ha.
Qed.

Lemma split_no_sep (sep : N) (a : str) :
  Forall (fun c => c <> sep) a -> split sep a = [a].
Proof.
  induction 1 as [|c a Hc _ IH]; simpl; [done|].
  apply N.eqb_neq in Hc. by rewrite Hc, IH.
Qed.

Lemma split_lines_no_sep (sep : N) (s : str) :
  Forall (Forall (fun c => c <> sep)) (split sep s).
Proof.
  induction s as [|c s IH]; simpl; [by repeat constructor|].
  destruct (c =? sep) eqn:Hc; [by constructor|].
  apply N.eqb_neq in Hc.
  destruct (split sep s) as [|l ls]; [by repeat constructor|].
  inversion IH; subst. constructor; [by constructor|done].
Qed.

Lemma accumulate_app (xs ys : list str) :
  accumulate (xs ++ ys) = accumulate xs ++ accumulate ys.
Proof. unfold accumulate. by rewrite List.map_app, concat_app. Qed.

Lemma accumulate_split (c : str) : accumulate (split NL c) = c ++ [NL].
Proof.
  induction c as [|x c IH]; [done|]. simpl.
  destruct (x =? NL) eqn:Hx.
  - apply N.eqb_eq in Hx as ->. unfold accumulate in *. simpl. by rewrite IH.
  - destruct (split NL c) as [|l ls] eqn:Hs; [by apply split_nonempty in Hs|].
    unfold accumulate in *. simpl in *. by rewrite IH.
Qed.

Lemma blank_split (s : str) : blank s = forallb blank (split NL s).
Proof.
  induction s as [|c s IH]; [done|]. simpl.
  destruct (c =? NL) eqn:Hc.
  - apply N.eqb_eq in Hc as ->. by rewrite IH.
  - rewrite IH. destruct (split NL s) as [|l ls] eqn:Hs;
      [by apply split_nonempty in Hs|].
    simpl. by rewrite andb_assoc.
Qed.

Lemma blank_accumulate (ls : list str) :
  blank (accumulate ls) = forallb blank ls.
Proof.
  induction ls as [|l ls IH]; [done|].
  change (accumulate (l :: ls)) with ((l ++ [NL]) ++ accumulate ls).
  rewrite !blank_app, IH. simpl. by rewrite andb_true_r.
Qed.

Lemma split_join (xs : list str) :
  xs <> [] -> split NL (join [NL] xs) = concat (List.map (split NL) xs).
Proof.
  induction xs as [|x xs IH]; [done|]. intros _.
  destruct xs as [|y ys].
  - simpl. by rewrite app_nil_r.
  - change (join [NL] (x :: y :: ys)) with (x ++ NL :: join [NL] (y :: ys)).
    rewrite split_app, IH by done. done.
Qed.

(** ** The header pattern *)

Lemma try_down_Some {A} (lo d : nat) (k : nat -> option A) (r : A) :
  try_down lo d k = Some r ->
  exists n, (lo <= n <= lo + d)%nat /\ k n = Some r.
Proof.
  induction d as [|d IH]; simpl.
  - destruct (k (lo + 0)%nat) eqn:Hk; [|done]. intros [= ->].
    exists (lo + 0)%nat. split; [lia|done].
  - destruct (k (lo + S d)%nat) eqn:Hk.
    + intros [= ->]. exists (lo + S d)%nat. split; [lia|done].
    + intros (n & Hn & Hkn)%IH. exists n. split; [lia|done].
Qed.

Lemma try_down_top {A} (lo d : nat) (k : nat -> option A) (r : A) :
  k (lo + d)%nat = Some r -> try_down lo d k = Some r.
Proof. intros H. destruct d; simpl; by rewrite H. Qed.

Lemma greedy_Some {A} (p : N -> bool) lo hi (s : str) (k : nat -> option A) r :
  greedy p lo hi s k = Some r ->
  exists n, (lo <= n <= span p s)%nat
            /\ (forall h, hi = Some h -> n <= h)%nat /\ k n = Some r.
Proof.
  unfold greedy.
  destruct (Nat.ltb_spec
              (match hi with Some h => Nat.min h (span p s) | None => span p s end) lo)
    as [|Hle]; [done|].
  intros (n & Hn & Hk)%try_down_Some. exists n.
  destruct hi as [h|]; (split; [lia|]); (split; [|done]).
  - intros ? [= <-]. lia.
  - done.
Qed.

Lemma span_le_length (p : N -> bool) (s : str) : (span p s <= length s)%nat.
Proof. induction s as [|c s IH]; simpl; [lia|]. destruct (p c); simpl; lia. Qed.

Lemma span_take (p : N -> bool) (s : str) (n : nat) :
  (n <= span p s)%nat -> Forall (fun c => p c = true) (take n s).
Proof.
  revert n. induction s as [|c s IH]; intros n Hn.
  - by rewrite take_nil.
  - destruct n as [|n]; [constructor|]. simpl in *.
    destruct (p c) eqn:Hc; [|lia]. constructor; [done|]. apply IH. lia.
Qed.

Lemma span_drop_head (p : N -> bool) (s : str) (n : nat) :
  (n < span p s)%nat -> exists c x, drop n s = c :: x /\ p c = true.
Proof.
  revert n. induction s as [|c s IH]; intros n Hn; simpl in *; [lia|].
  destruct (p c) eqn:Hc; [|lia].
  destruct n as [|n]; [by exists c, s|]. apply IH. lia.
Qed.

Lemma span_pos_head (p : N -> bool) (s : str) :
  (1 <= span p s)%nat -> exists c x, s = c :: x /\ p c = true.
Proof.
  destruct s as [|c x]; simpl; [lia|].
  destruct (p c) eqn:Hc; [|lia]. by exists c, x.
Qed.

(** A match needs one to six markers at the start of the line, and the
    first group is all of them. *)
Lemma header_match_markers (line g1 g2 : str) :
  header_match line = Some (g1, g2) ->
  length g1 = span (N.eqb HASH) line /\ (1 <= length g1 <= 6)%nat.
Proof.
  unfold header_match.
  intros (i & Hi & Hhi & Hk)%greedy_Some.
  apply greedy_Some in Hk as (j & Hj & _ & Hk).
  apply greedy_Some in Hk as (m & Hm & _ & Hk).
  destruct (at_end _); [|done]. injection Hk as <- <-.
  specialize (Hhi _ eq_refl).
  pose proof (span_le_length (N.eqb HASH) line).
  rewrite length_take, Nat.min_l by lia.
  split; [|lia].
  destruct (Nat.lt_ge_cases i (span (N.eqb HASH) line)) as [Hlt|]; [|lia].
  apply span_drop_head in Hlt as (c & x & Hd & Hc).
  destruct (span_pos_head isspace (drop i line)) as (c' & x' & Hd' & Hc'); [lia|].
  rewrite Hd in Hd'. injection Hd' as <- <-.
  apply N.eqb_eq in Hc as <-. done.
Qed.

Lemma span_replicate_hash (k : nat) (rest : str) :
  (k <= span (N.eqb HASH) (replicate k HASH ++ rest))%nat.
Proof. induction k as [|k IH]; simpl; lia. Qed.

Lemma header_match_seven (k : nat) (rest : str) :
  (7 <= k)%nat -> header_match (replicate k HASH ++ rest) = None.
Proof.
  intros Hk. destruct (header_match _) as [[g1 g2]|] eqn:H; [|done].
  apply header_match_markers in H as [H1 H2].
  pose proof (span_replicate_hash k rest). lia.
Qed.

Lemma span_all (p : N -> bool) (s : str) :
  Forall (fun c => p c = true) s -> span p s = length s.
Proof. induction 1 as [|c s Hc _ IH]; simpl; [done|]. by rewrite Hc, IH. Qed.

Lemma greedy_longest {A} (p : N -> bool) lo hi (s : str) (k : nat -> option A) r :
  (lo <= span p s)%nat ->
  (forall h, hi = Some h -> span p s <= h)%nat ->
  k (span p s) = Some r ->
  greedy p lo hi s k = Some r.
Proof.
  intros Hlo Hhi Hk. unfold greedy.
  assert (match hi with Some h => Nat.min h (span p s) | None => span p s end
          = span p s) as ->.
  { destruct hi as [h|]; [|done]. specialize (Hhi _ eq_refl). lia. }
  destruct (Nat.ltb_spec (span p s) lo); [lia|].
  apply try_down_top. by replace (lo + (span p s - lo))%nat with (span p s) by lia.
Qed.

(** The line ["# " + t] for a title [t] is a header of depth 1 with that
    title. *)
Lemma header_match_block (t : str) :
  header_title t -> header_match (lit "# " ++ t) = Some ([HASH], t).
Proof.
  intros (Hne & Hst & Hnl).
  destruct (fixed_strip_tight t Hne Hst) as [(c & x & -> & Hc) _].
  assert (span (fun c => negb (c =? NL)) (c :: x) = length (c :: x)) as Hspan.
  { apply span_all. eapply Forall_impl; [exact Hnl|].
    intros a Ha. simpl. by apply N.eqb_neq in Ha as ->. }
  change (lit "# " ++ c :: x) with (HASH :: 32 :: c :: x).
  assert (span (N.eqb HASH) (HASH :: 32 :: c :: x) = 1%nat) as H1 by done.
  assert (span isspace (32 :: c :: x) = 1%nat) as H2.
  { change (span isspace (32 :: c :: x)) with (S (span isspace (c :: x))).
    simpl. by rewrite Hc. }
  unfold header_match.
  apply greedy_longest; rewrite H1; [lia|intros ? [= <-]; lia|].
  change (drop 1 (HASH :: 32 :: c :: x)) with (32 :: c :: x). cbv zeta.
  apply greedy_longest; rewrite H2; [lia|done|].
  change (drop 1 (32 :: c :: x)) with (c :: x).
  apply greedy_longest; rewrite Hspan; [simpl; lia|done|].
  rewrite drop_all, (take_ge (c :: x)) by done. done.
Qed.

(** ** The segmenter loop *)

Lemma step_header (st : State) (line g1 g2 : str) :
  header_match line = Some (g1, g2) ->
  step st line =
    mkState (save_previous st)
      (mkCurrent (strip g2) [] (Some (Z.of_nat (length g1)))).
Proof. intros H. unfold step. by rewrite H. Qed.

Lemma step_no_header (st : State) (line : str) :
  header_match line = None ->
  step st line =
    if blank line then st
    else mkState (sections st)
           (mkCurrent (cur_title (current_section st))
              (cur_content (current_section st) ++ line ++ [NL])
              (cur_level (current_section st))).
Proof.
  intros H. unfold step. rewrite H, truthy_strip. by destruct (blank line).
Qed.

Lemma run_cons (st : State) (l : str) (ls : list str) :
  run st (l :: ls) = run (step st l) ls.
Proof. done. Qed.

Lemma run_app (st : State) (xs ys : list str) :
  run st (xs ++ ys) = run (run st xs) ys.
Proof. apply fold_left_app. Qed.

Lemma forallb_blank_filter (ls : list str) :
  forallb blank (List.filter (fun l => negb (blank l)) ls) = forallb blank ls.
Proof.
  induction ls as [|l ls IH]; [done|]. simpl.
  destruct (blank l) eqn:Hl; simpl; [done|]. by rewrite Hl.
Qed.

(** Without header lines the loop only appends to the current content. *)
Lemma run_no_header (lines : list str) : forall st,
  Forall (fun l => header_match l = None) lines ->
  run st lines =
    mkState (sections st)
      (mkCurrent (cur_title (current_section st))
         (cur_content (current_section st)
          ++ accumulate (List.filter (fun l => negb (blank l)) lines))
         (cur_level (current_section st))).
Proof.
  induction lines as [|l ls IH]; intros st H.
  - destruct st as [secs [t c lv]]. simpl. by rewrite app_nil_r.
  - inversion H as [|? ? Hl Hls]; subst.
    rewrite run_cons, IH, step_no_header by done.
    simpl. destruct (blank l); simpl; [done|].
    change (accumulate (l :: ?x)) with ((l ++ [NL]) ++ accumulate x).
    by rewrite <- !app_assoc.
Qed.

(** The emitted sections are the opened sections with non-blank content. *)
Lemma finish_run_opened (lines : list str) : forall st body,
  cur_content (current_section st) = accumulate body ->
  List.map title_content (finish (run st lines)) =
    List.map title_content (sections st)
    ++ List.filter (fun p => truthy p.2)
         (List.map (fun b => (b.1, strip (accumulate b.2)))
            (opened (cur_title (current_section st)) body lines)).
Proof.
  induction lines as [|l ls IH]; intros st body Hc.
  - simpl. unfold finish. rewrite Hc.
    destruct (truthy (strip (accumulate body))); simpl.
    + by rewrite List.map_app.
    + by rewrite app_nil_r.
  - rewrite run_cons. simpl opened.
    destruct (header_match l) as [[g1 g2]|] eqn:Hl.
    + rewrite (step_header _ _ _ _ Hl), (IH _ []) by done. simpl.
      unfold save_previous. rewrite Hc.
      destruct (truthy (strip (accumulate body))); simpl; [|done].
      by rewrite List.map_app, <- app_assoc.
    + rewrite (step_no_header _ _ Hl).
      destruct (blank l); [by apply IH|].
      rewrite (IH _ (body ++ [l])); [done|].
      simpl. rewrite Hc, accumulate_app. unfold accumulate. simpl.
      by rewrite app_nil_r.
Qed.

Lemma opened_bodies (lines : list str) : forall t body,
  concat (List.map snd (opened t body lines))
  = body ++ List.filter content_line lines.
Proof.
  induction lines as [|l ls IH]; intros t body; simpl.
  - by rewrite !app_nil_r.
  - unfold content_line at 1, is_header.
    destruct (header_match l) as [[g1 g2]|]; simpl.
    + by rewrite IH.
    + rewrite IH. destruct (blank l); simpl; [done|]. by rewrite <- app_assoc.
Qed.

Lemma opened_bodies_not_blank (lines : list str) : forall t body,
  (forallb blank body = true -> body = []) ->
  Forall (fun g => forallb blank g = true -> g = [])
    (List.map snd (opened t body lines)).
Proof.
  induction lines as [|l ls IH]; intros t body Hb; simpl.
  - by constructor.
  - destruct (header_match l) as [[g1 g2]|]; simpl.
    + constructor; [done|]. by apply IH.
    + apply IH. destruct (blank l) eqn:Hl; [done|].
      rewrite forallb_app. simpl. by rewrite Hl, andb_false_r.
Qed.

Lemma opened_titles (lines : list str) : forall t body,
  List.map fst (opened t body lines)
  = t :: omap (fun l => (fun g => strip g.2) <$> header_match l) lines.
Proof.
  induction lines as [|l ls IH]; intros t body; simpl; [done|].
  destruct (header_match l) as [[g1 g2]|]; simpl; by rewrite IH.
Qed.

Lemma run_levels (lines : list str) : forall st,
  Forall (fun s => level_in_range (level s)) (sections st) ->
  (forall z, cur_level (current_section st) = Some z -> level_in_range z) ->
  Forall (fun s => level_in_range (level s)) (sections (run st lines))
  /\ (forall z, cur_level (current_section (run st lines)) = Some z ->
                level_in_range z).
Proof.
  induction lines as [|l ls IH]; intros st Hs Hc; [done|].
  rewrite run_cons. apply IH.
  - unfold step. destruct (header_match l) as [[g1 g2]|]; simpl.
    + unfold save_previous. destruct (truthy _); [|done].
      apply Forall_app. split; [done|]. constructor; [|done].
      simpl. unfold level_in_range. lia.
    + by destruct (truthy _).
  - unfold step. destruct (header_match l) as [[g1 g2]|] eqn:Hl; simpl.
    + intros z [= <-]. apply header_match_markers in Hl as [_ Hl].
      unfold level_in_range. lia.
    + by destruct (truthy _).
Qed.

Lemma levels_in_range (text : str) :
  Forall (fun s => level_in_range (level s)) (_parse_markdown_to_sections text).
Proof.
  unfold _parse_markdown_to_sections.
  destruct (run_levels (split NL text) init) as [Hs Hc]; [by constructor|done|].
  unfold finish. destruct (truthy _); [|done].
  apply Forall_app. split; [done|]. constructor; [|done]. simpl.
  destruct (cur_level _) as [z|] eqn:Hz; simpl; [by apply Hc|].
  unfold level_in_range. lia.
Qed.

(** ** Section levels *)

(** C2 (the code departs from the claim).  On ["## A\nfoo\n# B\nbar"] the
    first header line has two markers, yet the section it opens is emitted
    with level 1: a section that is saved when the next header arrives gets
    the constant level 1, and only the last section of the text gets the
    level of its header. *)
Theorem earlier_section_loses_level :
  header_match (lit "## A") = Some (lit "##", lit "A")
  /\ _parse_markdown_to_sections text_two_levels = [sec_A; sec_B]
  /\ level sec_A = 1%Z.
Proof. by vm_compute. Qed.

(** A text whose only header is its last one keeps that header's level. *)
Lemma last_section_keeps_level :
  _parse_markdown_to_sections (lit "## A" ++ [NL] ++ lit "foo")
  = [mkPaperSection (lit "A") (lit "foo") 2].
Proof. by vm_compute. Qed.

(** ** Lines with seven or more markers *)



(** ** Text without header lines *)

(** C6 as stated, at ["a\n\nb"]: no line is a header and the text is not
    blank, but the one section's content is ["a\nb"], not the trimmed
    input. *)
Lemma no_header_content_is_not_trimmed_input :
  Forall (fun l => header_match l = None) (split NL text_with_blank_line)
  /\ blank text_with_blank_line = false
  /\ _parse_markdown_to_sections text_with_blank_line
     = [mkPaperSection default_title (lit "a" ++ [NL] ++ lit "b") 1]
  /\ _parse_markdown_to_sections text_with_blank_line
     <> [mkPaperSection default_title (strip text_with_blank_line) 1].
Proof.
  split; [by repeat constructor|]. split; [done|]. split; [by vm_compute|].
  by vm_compute.
Qed.

Lemma no_header_sections (text : str) :
  Forall (fun l => header_match l = None) (split NL text) ->
  _parse_markdown_to_sections text =
    if blank text then []
    else [mkPaperSection default_title
            (strip (accumulate
               (List.filter (fun l => negb (blank l)) (split NL text))))
            1].
Proof.
  intros H. unfold _parse_markdown_to_sections.
  rewrite run_no_header by done. unfold finish. simpl.
  rewrite truthy_strip, blank_accumulate, forallb_blank_filter, <- blank_split.
  by destruct (blank text).
Qed.

Lemma strip_app_blank (s b : str) : blank b = true -> strip (s ++ b) = strip s.
Proof.
  intros Hb. destruct (strip_cases s) as [[Hs ->]|(a & b' & Hs & Ha & Hb' & Ht)].
  - apply strip_blank. by rewrite blank_app, Hs, Hb.
  - rewrite Hs at 1. rewrite <- !app_assoc.
    apply strip_spec; [done| |done]. by rewrite blank_app, Hb', Hb.
Qed.

(** When no line at all is blank, that content is the trimmed input. *)
Lemma no_header_no_blank_line (text : str) :
  Forall (fun l => header_match l = None) (split NL text) ->
  forallb (fun l => negb (blank l)) (split NL text) = true ->
  _parse_markdown_to_sections text
  = [mkPaperSection default_title (strip text) 1].
Proof.
  intros H Hnb. rewrite no_header_sections by done.
  assert (List.filter (fun l => negb (blank l)) (split NL text) = split NL text)
    as ->.
  { revert Hnb. generalize (split NL text). induction l as [|x l IH]; [done|].
    simpl. intros [-> ?]%andb_prop. f_equal. auto. }
  rewrite accumulate_split, strip_app_blank by done.
  rewrite blank_split. destruct (split NL text) as [|x l] eqn:Hs;
    [by apply split_nonempty in Hs|].
  simpl in *. apply andb_prop in Hnb as [Hx _].
  apply negb_true_iff in Hx. by rewrite Hx.
Qed.

(** C6 (amended).  A text without header lines yields no section when it
    is blank, and otherwise exactly one section, with the default title,
    level 1, and as content the trimmed run of its non-blank lines, each
    followed by a newline; that content is the full trimmed input when no
    line of the text is blank. *)
Theorem no_header_single_section (text : str) :
  Forall (fun l => header_match l = None) (split NL text) ->
  _parse_markdown_to_sections text =
    (if blank text then []
     else [mkPaperSection default_title
             (strip (accumulate
                (List.filter (fun l => negb (blank l)) (split NL text))))
             1])
  /\ (forallb (fun l => negb (blank l)) (split NL text) = true ->
      _parse_markdown_to_sections text
      = [mkPaperSection default_title (strip text) 1]).
Proof.
  intros H. split; [by apply no_header_sections|].
  by apply no_header_no_blank_line.
Qed.

Lemma no_header_single_section_witness :
  Forall (fun l => header_match l = None) (split NL text_with_blank_line)
  /\ _parse_markdown_to_sections text_with_blank_line =
       (if blank text_with_blank_line then []
        else [mkPaperSection default_title
                (strip (accumulate
                   (List.filter (fun l => negb (blank l))
                      (split NL text_with_blank_line))))
                1]).
Proof.
  assert (Forall (fun l => header_match l = None) (split NL text_with_blank_line))
    as H by (vm_compute; repeat constructor).
  split; [exact H|].
  exact (proj1 (no_header_single_section text_with_blank_line H)).
Defined.

(** ** Emitted sections: content and order *)

Lemma finish_content_not_blank (st : State) :
  Forall (fun s => truthy (strip (content s)) = true) (sections st) ->
  Forall (fun s => truthy (strip (content s)) = true) (finish st).
Proof.
  intros H. unfold finish.
  destruct (truthy (strip (cur_content (current_section st)))) eqn:Hc; [|done].
  apply Forall_app. split; [done|]. constructor; [|done].
  simpl. by rewrite strip_idemp.
Qed.

Lemma run_content_not_blank (lines : list str) : forall st,
  Forall (fun s => truthy (strip (content s)) = true) (sections st) ->
  Forall (fun s => truthy (strip (content s)) = true) (sections (run st lines)).
Proof.
  induction lines as [|l ls IH]; intros st H; [done|].
  rewrite run_cons. apply IH. unfold step.
  destruct (header_match l) as [[g1 g2]|]; simpl.
  - unfold save_previous.
    destruct (truthy (strip (cur_content (current_section st)))) eqn:Hc; [|done].
    apply Forall_app. split; [done|]. constructor; [|done].
    simpl. by rewrite strip_idemp.
  - by destruct (truthy (strip l)).
Qed.

Lemma emitted_in_input_order (text : str) :
  List.map title_content (_parse_markdown_to_sections text)
  = List.filter (fun p => truthy p.2) (in_input_order text).
Proof.
  unfold _parse_markdown_to_sections, in_input_order.
  by rewrite (finish_run_opened _ init []).
Qed.

Lemma in_input_order_titles (text : str) :
  List.map fst (in_input_order text)
  = default_title
    :: omap (fun l => (fun g => strip g.2) <$> header_match l) (split NL text).
Proof.
  unfold in_input_order. rewrite List.map_map. simpl.
  apply (opened_titles _ default_title []).
Qed.

(** C8.  No emitted section has a content that is empty after trimming,
    and the emitted sections are, in the same order, exactly those of the
    sections opened in input order (the implicit one, then one per header
    line) whose trimmed content is not empty. *)
Theorem emitted_not_blank_in_input_order (text : str) :
  Forall (fun s => truthy (strip (content s)) = true)
    (_parse_markdown_to_sections text)
  /\ List.map title_content (_parse_markdown_to_sections text)
     = List.filter (fun p => truthy p.2) (in_input_order text)
  /\ List.map fst (in_input_order text)
     = default_title
       :: omap (fun l => (fun g => strip g.2) <$> header_match l) (split NL text).
Proof.
  split; [|split].
  - apply finish_content_not_blank, run_content_not_blank. constructor.
  - apply emitted_in_input_order.
  - apply in_input_order_titles.
Qed.

(** The titles of the emitted sections follow the order of the header
    lines. *)
Lemma emitted_titles_sublist (text : str) :
  sublist (List.map title (_parse_markdown_to_sections text))
    (default_title
     :: omap (fun l => (fun g => strip g.2) <$> header_match l) (split NL text)).
Proof.
  rewrite <- in_input_order_titles.
  replace (List.map title (_parse_markdown_to_sections text))
    with (List.map fst (List.map title_content (_parse_markdown_to_sections text)))
    by (by rewrite List.map_map).
  rewrite emitted_in_input_order. generalize (in_input_order text).
  induction l as [|p l IH]; simpl; [constructor|].
  destruct (truthy p.2); simpl; by constructor.
Qed.

(** ** Contents against the input *)

(** C5 as stated, at ["a\n\nb"]: the text has no header line, so removing
    header lines leaves it unchanged, but the contents concatenated are
    ["a\nb"]. *)
Lemma contents_do_not_rebuild_input :
  without_header_lines text_with_blank_line = text_with_blank_line
  /\ concat (List.map content (_parse_markdown_to_sections text_with_blank_line))
     = lit "a" ++ [NL] ++ lit "b"
  /\ concat (List.map content (_parse_markdown_to_sections text_with_blank_line))
     <> without_header_lines text_with_blank_line.
Proof. split; [by vm_compute|]. split; by vm_compute. Qed.

Lemma map_snd_filter_opened (O : list (str * list str)) :
  List.map snd
    (List.filter (fun p => truthy p.2)
       (List.map (fun b => (b.1, strip (accumulate b.2))) O))
  = List.map (fun g => strip (accumulate g))
      (List.filter (fun g => truthy (strip (accumulate g))) (List.map snd O)).
Proof.
  induction O as [|[t g] O IH]; [done|]. simpl.
  destruct (truthy (strip (accumulate g))); simpl; by rewrite IH.
Qed.

Lemma Forall2_map_eq {A B C} (f : A -> C) (g : B -> C) (xs : list A) :
  forall ys, List.map f xs = List.map g ys ->
  Forall2 (fun x y => f x = g y) xs ys.
Proof.
  induction xs as [|x xs IH]; intros [|y ys] H; try discriminate.
  - constructor.
  - injection H as Hx Hxs. constructor; auto.
Qed.

Lemma concat_filter_groups (gs : list (list str)) :
  Forall (fun g => forallb blank g = true -> g = []) gs ->
  concat (List.filter (fun g => truthy (strip (accumulate g))) gs) = concat gs.
Proof.
  induction 1 as [|g gs Hg _ IH]; [done|]. simpl.
  rewrite truthy_strip, blank_accumulate.
  destruct (forallb blank g) eqn:Hb; simpl; [|by rewrite IH].
  by rewrite (Hg eq_refl), IH.
Qed.

(** C5 (amended).  The content lines of the input (its lines that are
    neither header nor blank) split, in order and without overlap, into
    consecutive groups, one per emitted section, and the content of each
    section is the trimmed run of its group's lines, each followed by a
    newline. *)
Theorem contents_partition_content_lines (text : str) :
  exists groups : list (list str),
    concat groups = List.filter content_line (split NL text)
    /\ Forall2 (fun s g => content s = strip (accumulate g))
         (_parse_markdown_to_sections text) groups
    /\ Forall (fun g => g <> []) groups.
Proof.
  set (O := opened default_title [] (split NL text)).
  exists (List.filter (fun g => truthy (strip (accumulate g))) (List.map snd O)).
  split; [|split].
  - rewrite concat_filter_groups.
    + apply (opened_bodies _ default_title []).
    + by apply opened_bodies_not_blank.
  - apply Forall2_map_eq.
    rewrite <- map_snd_filter_opened.
    change (List.map (fun b => (b.1, strip (accumulate b.2))) O)
      with (in_input_order text).
    rewrite <- emitted_in_input_order. by rewrite List.map_map.
  - generalize (List.map snd O). induction l as [|g l IH]; simpl; [constructor|].
    destruct (truthy (strip (accumulate g))) eqn:Hg; [|done].
    constructor; [|done]. by intros ->.
Qed.

(** ** Reading sections back from their blocks *)

(** C4 as stated, at the sections of ["# A\nfoo\n# B\nbar"]: they are an
    output of the segmenter, with non-empty titles and non-blank contents,
    but their blocks concatenated are ["# A\nfoo# B\nbar"], which has one
    header line only. *)
Lemma concatenated_blocks_do_not_read_back :
  _parse_markdown_to_sections text_two_sections = [sec_A; sec_B]
  /\ rebuild_concat [sec_A; sec_B]
     = lit "# A" ++ [NL] ++ lit "foo# B" ++ [NL] ++ lit "bar"
  /\ _parse_markdown_to_sections (rebuild_concat [sec_A; sec_B])
     = [mkPaperSection (lit "A") (lit "foo# B" ++ [NL] ++ lit "bar") 1]
  /\ _parse_markdown_to_sections (rebuild_concat [sec_A; sec_B])
     <> [sec_A; sec_B].
Proof. repeat split; by vm_compute. Qed.

(** A block starts with one marker, so a level other than 1 is lost. *)
Lemma block_level_is_one :
  _parse_markdown_to_sections (lit "## A" ++ [NL] ++ lit "foo")
  = [mkPaperSection (lit "A") (lit "foo") 2]
  /\ _parse_markdown_to_sections
       (rebuild_lines [mkPaperSection (lit "A") (lit "foo") 2])
     = [mkPaperSection (lit "A") (lit "foo") 1].
Proof. split; by vm_compute. Qed.

(** Trimming can turn an indented line into a header line: the output
    content ["# X"] of ["# T\n  # X"] does not read back. *)
Lemma trimmed_content_can_be_header :
  _parse_markdown_to_sections (lit "# T" ++ [NL] ++ lit "  # X")
  = [mkPaperSection (lit "T") (lit "# X") 1]
  /\ _parse_markdown_to_sections
       (rebuild_lines [mkPaperSection (lit "T") (lit "# X") 1])
     = [].
Proof. split; by vm_compute. Qed.

Lemma content_line_spec (l : str) :
  content_line l = true -> header_match l = None /\ blank l = false.
Proof.
  unfold content_line, is_header. intros [H1 H2]%andb_prop.
  apply negb_true_iff in H2. split; [|done].
  by destruct (header_match l).
Qed.

Lemma split_as_block (s : PaperSection) :
  header_title (title s) -> split NL (as_block s) = block_lines s.
Proof.
  intros (_ & _ & Hnl). unfold as_block, block_lines.
  rewrite app_assoc. change ([NL] ++ content s) with (NL :: content s).
  rewrite split_app, split_no_sep; [done|].
  apply Forall_app. split; [|done]. by repeat constructor.
Qed.

Lemma run_block (st : State) (s : PaperSection) :
  reads_back s ->
  run st (block_lines s) =
    mkState (save_previous st)
      (mkCurrent (title s) (content s ++ [NL]) (Some 1%Z)).
Proof.
  intros (Ht & (Hne & Hst & Hlines) & _). unfold block_lines.
  rewrite run_cons, (step_header _ _ _ _ (header_match_block _ Ht)).
  rewrite run_no_header.
  - simpl. destruct Ht as (_ & -> & _).
    assert (List.filter (fun l => negb (blank l)) (split NL (content s))
            = split NL (content s)) as ->.
    { induction Hlines as [|l ls Hl _ IH]; [done|]. simpl.
      apply content_line_spec in Hl as [_ ->]. simpl. by rewrite IH. }
    by rewrite accumulate_split.
  - eapply Forall_impl; [exact Hlines|]. intros l Hl.
    by apply content_line_spec in Hl as [? _].
Qed.

Lemma after_block (st : State) (s : PaperSection) :
  reads_back s ->
  finish (run st (block_lines s)) = save_previous st ++ [s]
  /\ save_previous (run st (block_lines s)) = save_previous st ++ [s].
Proof.
  intros Hs. rewrite (run_block _ _ Hs).
  destruct Hs as (_ & (Hne & Hst & _) & Hlv).
  destruct s as [t c lv]. simpl in *. subst lv.
  split.
  - unfold finish. simpl. rewrite (strip_app_NL _ Hne Hst). by destruct c.
  - unfold save_previous at 1. simpl. rewrite (strip_app_NL _ Hne Hst).
    by destruct c.
Qed.

Lemma run_blocks (secs : list PaperSection) : forall st,
  Forall reads_back secs ->
  finish st = save_previous st ->
  finish (run st (concat (List.map block_lines secs))) = save_previous st ++ secs.
Proof.
  induction secs as [|s secs IH]; intros st Hsecs Hst.
  - simpl. by rewrite app_nil_r.
  - inversion Hsecs as [|? ? Hs Hrest]; subst.
    change (concat (List.map block_lines (s :: secs)))
      with (block_lines s ++ concat (List.map block_lines secs)).
    rewrite run_app. destruct (after_block st s Hs) as [Hf Hp].
    rewrite (IH (run st (block_lines s)) Hrest) by (by rewrite Hf, Hp).
    by rewrite Hp, <- app_assoc.
Qed.

(** C4 (amended).  For every sequence of sections of level 1 whose titles
    are non-empty, trimmed and on one line and whose contents are
    non-empty, trimmed and made of content lines only, segmenting the
    blocks ["# " + title + "\n" + content], joined by newlines, gives back
    exactly that sequence. *)
Theorem blocks_on_lines_read_back (secs : list PaperSection) :
  Forall reads_back secs ->
  _parse_markdown_to_sections (rebuild_lines secs) = secs.
Proof.
  intros H. destruct secs as [|s secs]; [by vm_compute|].
  unfold _parse_markdown_to_sections, rebuild_lines.
  rewrite split_join by done.
  assert (List.map (split NL) (List.map as_block (s :: secs))
          = List.map block_lines (s :: secs)) as ->.
  { rewrite List.map_map. apply List.map_ext_in. intros x Hx.
    apply split_as_block. rewrite Forall_forall in H.
    apply list_elem_of_In in Hx. by destruct (H x Hx). }
  by rewrite run_blocks.
Qed.

Lemma blocks_on_lines_read_back_witness :
  Forall reads_back [sec_A; sec_B]
  /\ _parse_markdown_to_sections (rebuild_lines [sec_A; sec_B]) = [sec_A; sec_B].
Proof.
  assert (Forall reads_back [sec_A; sec_B]) as H.
  { repeat constructor; try (by vm_compute); intros [=]. }
  split; [exact H|]. exact (blocks_on_lines_read_back [sec_A; sec_B] H).
Defined.

(** ** Effects: state *)

Section PostState.
Context {S : Type}.

Lemma stateless_post {A} (P : S -> Prop) (m : M S A) :
  stateless m -> post_state P m P.
Proof. intros Hm s Hs. by rewrite Hm. Qed.

Lemma stateless_ret {A} (a : A) : stateless (ret a : M S A).
Proof. done. Qed.

Lemma stateless_raise {A} (e : exn) : stateless (raise e : M S A).
Proof. done. Qed.

Lemma stateless_call {A} (r : ext A) : stateless (call r : M S A).
Proof. by destruct r. Qed.

Lemma stateless_bind {A B} (m : M S A) (k : A -> M S B) :
  stateless m -> (forall a, stateless (k a)) -> stateless (bind m k).
Proof.
  intros Hm Hk s. unfold bind. specialize (Hm s).
  destruct (m s) as [[a|e] s']; simpl in *; subst; [apply Hk|done].
Qed.

Lemma stateless_try_except {A} (m : M S A) (h : exn -> M S A) :
  stateless m -> (forall e, stateless (h e)) -> stateless (try_except m h).
Proof.
  intros Hm Hh s. unfold try_except. specialize (Hm s).
  destruct (m s) as [[a|e] s']; simpl in *; subst; [done|apply Hh].
Qed.

Lemma stateless_when (c : bool) (m : M S unit) :
  stateless m -> stateless (when_ c m).
Proof. by destruct c. Qed.

Lemma post_bind {A B} (P R Q : S -> Prop) (m : M S A) (k : A -> M S B) :
  post_state P m R -> (forall s, R s -> Q s) ->
  (forall a, post_state R (k a) Q) ->
  post_state P (bind m k) Q.
Proof.
  intros Hm HRQ Hk s Hs. unfold bind. specialize (Hm s Hs).
  destruct (m s) as [[a|e] s']; simpl in *; [by apply Hk|by apply HRQ].
Qed.

Lemma post_try_except {A} (P R Q : S -> Prop) (m : M S A) (h : exn -> M S A) :
  post_state P m R -> (forall s, R s -> Q s) ->
  (forall e, post_state R (h e) Q) ->
  post_state P (try_except m h) Q.
Proof.
  intros Hm HRQ Hh s Hs. unfold try_except. specialize (Hm s Hs).
  destruct (m s) as [[a|e] s']; simpl in *; [by apply HRQ|by apply Hh].
Qed.

Lemma post_try_finally {A} (P R Q : S -> Prop) (m : M S A) (c : M S unit) :
  post_state P m R -> post_state R c Q -> post_state P (try_finally m c) Q.
Proof.
  intros Hm Hc s Hs. unfold try_finally. specialize (Hm s Hs).
  destruct (m s) as [r s']; simpl in *. specialize (Hc s' Hm).
  by destruct (c s') as [[[]|e] s''].
Qed.

End PostState.

Import DeepSeek.

Lemma validate_stateless {S} (format_mb : Z -> str) (self : DeepSeekParser)
    (env : Env) :
  stateless (_validate_pdf format_mb self env : M S bool).
Proof.
  unfold _validate_pdf.
  apply stateless_try_except.
  - repeat (first
      [ apply stateless_bind; [|intros ?]
      | apply stateless_call | apply stateless_when
      | apply stateless_raise | apply stateless_ret ]).
  - intros [m|m|m|m]; apply stateless_raise.
Qed.

Lemma extract_text_stateless {S} (self : DeepSeekParser) (env : Env)
    (image : image_path) :
  stateless (_extract_text_from_image_file self env image : M S str).
Proof.
  unfold _extract_text_from_image_file.
  apply stateless_bind.
  - destruct (resolution_config !! resolution self);
      [apply stateless_ret|apply stateless_raise].
  - intros cfg. apply stateless_try_except; [apply stateless_call|].
    intros _. apply stateless_ret.
Qed.

Lemma ocr_pages_stateless {S} (self : DeepSeekParser) (env : Env)
    (image_paths : list image_path) : forall all_text,
  stateless (ocr_pages self env image_paths all_text : M S (list str)).
Proof.
  induction image_paths as [|image rest IH]; intros all_text; simpl.
  - apply stateless_ret.
  - apply stateless_bind; [apply extract_text_stateless|]. intros ?. apply IH.
Qed.

(** Loading the model touches no temporary directory. *)
Lemma lazy_load_tmpfs (env : Env) (w : World) :
  tmpfs (_lazy_load_model env w).2 = tmpfs w.
Proof.
  unfold _lazy_load_model, bind, get, modify, call, ret, raise. simpl.
  destruct (_model w); [done|].
  destruct (tokenizer_from_pretrained env); [|done]. simpl.
  destruct (model_from_pretrained env); [|done]. simpl.
  by destruct (model_to_device env).
Qed.

(** Rendering pages into a directory touches no other directory. *)
Lemma render_pages_tmpfs (env : Env) (d : positive) (page_nums : list nat) :
  forall image_paths w,
  delete d (tmpfs (render_pages env d page_nums image_paths w).2)
  = delete d (tmpfs w).
Proof.
  induction page_nums as [|n rest IH]; intros image_paths w; [done|].
  simpl. unfold bind at 1. unfold call.
  destruct (render_save env n) as [[]|msg]; [|done].
  unfold ret at 1. unfold bind at 1. unfold modify at 1.
  rewrite IH. unfold save_image, set_tmpfs. simpl.
  apply delete_alter_eq.
Qed.

Lemma extract_pages_tmpfs (self : DeepSeekParser) (env : Env) (d : positive)
    (w : World) :
  delete d (tmpfs (_extract_pages_as_images self env d w).2)
  = delete d (tmpfs w).
Proof.
  unfold _extract_pages_as_images, bind, call.
  destruct (pdfium_len env) as [n|msg]; [|done].
  unfold ret at 1, modify at 1. rewrite render_pages_tmpfs.
  unfold mkdir_exist_ok, set_tmpfs. simpl.
  destruct (tmpfs w !! d); [done|]. apply delete_insert_eq.
Qed.

(** ** The temporary directory *)

Lemma lift_lazy_load_no_temp_dir (env : Env) m0 :
  post_state (no_temp_dir m0) (lift (_lazy_load_model env)) (no_temp_dir m0).
Proof.
  intros f [Htd Hfs]. unfold lift.
  pose proof (lazy_load_tmpfs env (world f)) as H.
  destruct (_lazy_load_model env (world f)) as [r w']. simpl in *.
  split; [done|]. simpl. congruence.
Qed.

Lemma lift_extract_owns (self : DeepSeekParser) (env : Env) m0 d :
  post_state (owns_temp_dir m0 d) (lift (_extract_pages_as_images self env d))
    (owns_temp_dir m0 d).
Proof.
  intros f (Htd & Hfresh & Hfs). unfold lift.
  pose proof (extract_pages_tmpfs self env d (world f)) as H.
  destruct (_extract_pages_as_images self env d (world f)) as [r w']. simpl in *.
  split; [done|]. split; [done|]. simpl. congruence.
Qed.

Lemma parse_body_scoped (format_mb : Z -> str) (self : DeepSeekParser)
    (env : Env) m0 :
  post_state (no_temp_dir m0) (parse_body format_mb self env) (scoped m0).
Proof.
  unfold parse_body.
  apply (post_bind _ (no_temp_dir m0));
    [apply stateless_post, validate_stateless|by left|intros _].
  apply (post_bind _ (no_temp_dir m0));
    [apply lift_lazy_load_no_temp_dir|by left|intros _].
  intros f [Htd Hfs]. unfold bind at 1. unfold lift at 1.
  unfold do_mkdtemp, bind at 1, call.
  destruct (mkdtemp env) as [[]|msg]; [|by left].
  unfold ret at 1, bind at 1, get, bind at 1, modify at 1, ret at 1. simpl.
  unfold bind at 1, modify at 1. simpl.
  set (d := fresh (dom (tmpfs (world f)))).
  assert (tmpfs (world f) !! d = None) as Hfresh.
  { apply not_elem_of_dom. apply is_fresh. }
  right. exists d.
  match goal with |- owns_temp_dir _ _ (?m ?f0).2 =>
    assert (post_state (owns_temp_dir m0 d) m (owns_temp_dir m0 d)) as Hrest;
      [|apply Hrest] end.
  - apply (post_bind _ (owns_temp_dir m0 d));
      [apply lift_extract_owns|done|intros image_paths].
    apply stateless_post.
    apply stateless_bind;
      [apply stateless_when, stateless_raise|intros _].
    apply stateless_bind; [apply ocr_pages_stateless|intros ?].
    apply stateless_ret.
  - split; [done|]. simpl. subst m0. split; [done|].
    by apply delete_insert_id.
Qed.

Lemma parse_handler_stateless (e : exn) : stateless (parse_handler e).
Proof.
  destruct e as [m|m|m|m]; simpl; try apply stateless_raise.
  destruct (_ || _); [apply stateless_ret|apply stateless_raise].
Qed.

(** The [finally] block either leaves the directories as they were
    before the call, or one of its two calls fails and its exception is
    what the block raises. *)
Lemma parse_cleanup_outcome (env : Env) m0 (f : Frame) :
  scoped m0 f ->
  match parse_cleanup env f with
  | (Return _, f') => tmpfs (world f') = m0
  | (Raise e, _) =>
      exists msg, e = OtherException msg /\
        (temp_dir_exists env = Fails msg \/ shutil_rmtree env = Fails msg)
  end.
Proof.
  intros Hf. unfold parse_cleanup, bind, get. simpl.
  destruct Hf as [[Htd Hfs]|(d & Htd & Hfresh & Hfs)]; rewrite Htd; [done|].
  unfold call. destruct (temp_dir_exists env) as [[]|msg] eqn:Hex; simpl.
  2:{ exists msg. split; [done|by left]. }
  case_bool_decide as Hd; simpl.
  - unfold lift, rmtree, bind, call.
    destruct (shutil_rmtree env) as [[]|msg] eqn:Hrm; simpl; [done|].
    exists msg. split; [done|by right].
  - rewrite <- Hfs. symmetry. apply delete_id.
    by apply eq_None_not_Some.
Qed.

Lemma parse_cleanup_restores (env : Env) m0 :
  temp_dir_exists env = Ok tt -> shutil_rmtree env = Ok tt ->
  post_state (scoped m0) (parse_cleanup env) (fun f => tmpfs (world f) = m0).
Proof.
  intros Hex Hrm f Hf.
  pose proof (parse_cleanup_outcome env m0 f Hf) as H.
  destruct (parse_cleanup env f) as [[[]|e] f']; [done|].
  destruct H as (msg & _ & [H|H]); congruence.
Qed.

(** When the [try] block and its handlers are done, the call holds at
    most its own directory. *)
Lemma parse_try_scoped (format_mb : Z -> str) (self : DeepSeekParser)
    (env : Env) (w : World) :
  scoped (tmpfs w)
    (try_except (parse_body format_mb self env) parse_handler
       (mkFrame w None)).2.
Proof.
  assert (post_state (no_temp_dir (tmpfs w))
            (try_except (parse_body format_mb self env) parse_handler)
            (scoped (tmpfs w))) as H.
  { eapply post_try_except; [apply parse_body_scoped|done|].
    intros e. apply stateless_post, parse_handler_stateless. }
  exact (H (mkFrame w None) (conj eq_refl eq_refl)).
Qed.

(** What [parse_pdf] does once the [try] block and its handlers are done:
    the outcome stands and the directories are those from before the
    call, or the [finally] block raises the failure of one of its two
    calls. *)
Lemma parse_pdf_finally (format_mb : Z -> str) (self : DeepSeekParser)
    (env : Env) (w : World) :
  ((parse_pdf format_mb self env w).1
   = (try_except (parse_body format_mb self env) parse_handler
        (mkFrame w None)).1
   /\ tmpfs (parse_pdf format_mb self env w).2 = tmpfs w)
  \/ exists msg,
       (parse_pdf format_mb self env w).1 = Raise (OtherException msg)
       /\ (temp_dir_exists env = Fails msg \/ shutil_rmtree env = Fails msg).
Proof.
  unfold parse_pdf, try_finally.
  pose proof (parse_try_scoped format_mb self env w) as Hsc.
  destruct (try_except _ _ _) as [r f]. simpl in Hsc.
  pose proof (parse_cleanup_outcome env _ f Hsc) as H.
  destruct (parse_cleanup env f) as [[[]|e] f']; simpl.
  - by left.
  - right. destruct H as (msg & -> & H). by exists msg.
Qed.

(** C9, counterexample.  The 2-page document of [env_paper] when
    [shutil.rmtree] raises: [parse_pdf] raises that exception, and the
    directory it made is still there afterwards, with both page images
    in it. *)
Lemma failed_rmtree_leaves_page_images :
  (parse_pdf format_mb_exact parser0 env_locked world0).1
  = Raise (OtherException (lit "Permission denied"))
  /\ tmpfs world0 !! 1%positive = None
  /\ tmpfs (parse_pdf format_mb_exact parser0 env_locked world0).2 !! 1%positive
     = Some ({[0%nat; 1%nat]} : gset nat).
Proof.
  split; [by vm_compute|]. split; [by vm_compute|].
  apply (bool_decide_eq_true_1 _). by vm_compute.
Qed.

(** C9 (amended).  After [parse_pdf] of the vision backend, whatever it
    returns or raises, the temporary directories are those from before
    the call: the directory the call may have created, with every page
    image in it, is gone; unless [temp_dir.exists()] or [shutil.rmtree]
    in the [finally] block fails, and then [parse_pdf] raises that
    failure as it is. *)
Theorem temp_dir_removed_unless_cleanup_fails (format_mb : Z -> str)
    (self : DeepSeekParser) (env : Env) (w : World) :
  tmpfs (parse_pdf format_mb self env w).2 = tmpfs w
  \/ exists msg,
       (parse_pdf format_mb self env w).1 = Raise (OtherException msg)
       /\ (temp_dir_exists env = Fails msg \/ shutil_rmtree env = Fails msg).
Proof.
  destruct (parse_pdf_finally format_mb self env w) as [[_ H]|H];
    [by left|by right].
Qed.

(** ** Validation and the soft skip *)

Arguments lit : simpl never.
Arguments str_of_Z : simpl never.

Lemma startswith_app {A} (eqb : A -> A -> bool) (p a b : list A) :
  startswith eqb p a = true -> startswith eqb p (a ++ b) = true.
Proof.
  revert a. induction p as [|x p IH]; intros [|y a]; simpl; try done.
  intros [-> ?]%andb_prop. simpl. auto.
Qed.

Lemma contains_app_l (needle a b : str) :
  contains needle a = true -> contains needle (a ++ b) = true.
Proof.
  induction a as [|c a IH].
  - destruct needle; [by destruct b|done].
  - intros H.
    change (startswith N.eqb needle (c :: a) || contains needle a = true) in H.
    change (startswith N.eqb needle ((c :: a) ++ b)
            || contains needle (a ++ b) = true).
    apply orb_prop in H as [H|H].
    + by rewrite (startswith_app _ needle (c :: a) b H).
    + rewrite (IH H). apply orb_true_r.
Qed.

Lemma lower_app (a b : str) : lower (a ++ b) = lower a ++ lower b.
Proof. apply List.map_app. Qed.

Arguments startswith : simpl never.

Section Validation.
Context {S : Type} (format_mb : Z -> str) (self : DeepSeekParser) (env : Env).

Lemma validate_too_large (size : Z) (s : S) :
  stat_st_size env = Ok size -> size <> 0%Z ->
  (size > max_file_size_bytes self)%Z ->
  _validate_pdf format_mb self env s =
    (Raise (PDFValidationError
       (lit "PDF file too large: " ++ format_mb size ++ lit "MB > "
        ++ format_mb (max_file_size_bytes self) ++ lit "MB")), s).
Proof.
  intros Hstat Hne Hgt.
  unfold _validate_pdf, try_except, bind, call, when_, raise, ret.
  rewrite Hstat. simpl.
  destruct (Z.eqb_spec size 0) as [|_]; [done|]. simpl.
  destruct (Z.gtb_spec size (max_file_size_bytes self)); [done|lia].
Qed.

Lemma validate_too_many_pages (size : Z) (header : list Byte.byte) (pages : Z)
    (s : S) :
  stat_st_size env = Ok size -> size <> 0%Z ->
  (size <= max_file_size_bytes self)%Z ->
  read_header env = Ok header -> startswith Byte.eqb pdf_magic header = true ->
  pdfium_len env = Ok pages -> (pages > max_pages self)%Z ->
  _validate_pdf format_mb self env s =
    (Raise (PDFValidationError
       (lit "PDF has too many pages: " ++ str_of_Z pages ++ lit " > "
        ++ str_of_Z (max_pages self))), s).
Proof.
  intros Hstat Hne Hle Hhead Hmagic Hlen Hgt.
  unfold _validate_pdf, try_except, bind, call, when_, raise, ret.
  rewrite Hstat. simpl.
  destruct (Z.eqb_spec size 0) as [|_]; [done|]. simpl.
  destruct (Z.gtb_spec size (max_file_size_bytes self)); [lia|]. simpl.
  rewrite Hhead. simpl. rewrite Hmagic. simpl. rewrite Hlen. simpl.
  destruct (Z.gtb_spec pages (max_pages self)); [done|lia].
Qed.

Lemma validate_ok (size : Z) (header : list Byte.byte) (pages : Z) (s : S) :
  stat_st_size env = Ok size -> size <> 0%Z ->
  (size <= max_file_size_bytes self)%Z ->
  read_header env = Ok header -> startswith Byte.eqb pdf_magic header = true ->
  pdfium_len env = Ok pages -> (pages <= max_pages self)%Z ->
  _validate_pdf format_mb self env s = (Return true, s).
Proof.
  intros Hstat Hne Hle Hhead Hmagic Hlen Hpages.
  unfold _validate_pdf, try_except, bind, call, when_, raise, ret.
  rewrite Hstat. simpl.
  destruct (Z.eqb_spec size 0) as [|_]; [done|]. simpl.
  destruct (Z.gtb_spec size (max_file_size_bytes self)); [lia|]. simpl.
  rewrite Hhead. simpl. rewrite Hmagic. simpl. rewrite Hlen. simpl.
  destruct (Z.gtb_spec pages (max_pages self)); [lia|done].
Qed.

End Validation.

(** A validation failure that the backend turns into "no result". *)
Lemma skipped_when_validation_says_limit (format_mb : Z -> str)
    (self : DeepSeekParser) (env : Env) (w : World) (msg : str) :
  _validate_pdf format_mb self env (mkFrame w None)
    = (Raise (PDFValidationError msg), mkFrame w None) ->
  contains (lit "too large") (lower msg)
    || contains (lit "too many pages") (lower msg) = true ->
  parse_pdf format_mb self env w = (Return None, w).
Proof.
  intros Hv Hmsg.
  unfold parse_pdf, try_finally, try_except, parse_body.
  unfold bind at 1. rewrite Hv. simpl. by rewrite Hmsg.
Qed.

Lemma limit_exceeded_skipped (format_mb : Z -> str) (self : DeepSeekParser)
    (env : Env) (w : World) (size : Z) :
  stat_st_size env = Ok size -> size <> 0%Z ->
  (size > max_file_size_bytes self)%Z
  \/ (exists header pages,
        read_header env = Ok header
        /\ startswith Byte.eqb pdf_magic header = true
        /\ pdfium_len env = Ok pages /\ (pages > max_pages self)%Z) ->
  parse_pdf format_mb self env w = (Return None, w).
Proof.
  intros Hstat Hne Hlimit.
  destruct (Z_gt_le_dec size (max_file_size_bytes self)) as [Hgt|Hle].
  - eapply skipped_when_validation_says_limit.
    + by apply (validate_too_large _ _ _ size).
    + rewrite lower_app.
      by rewrite (contains_app_l (lit "too large")
                    (lower (lit "PDF file too large: "))).
  - destruct Hlimit as [|(header & pages & Hhead & Hmagic & Hlen & Hgt)]; [lia|].
    eapply skipped_when_validation_says_limit.
    + by apply (validate_too_many_pages _ _ _ size header pages).
    + rewrite lower_app.
      rewrite (contains_app_l (lit "too many pages")
                 (lower (lit "PDF has too many pages: "))) by done.
      apply orb_true_r.
Qed.

(** ** The service boundary *)

(** C1 as stated, at a 3-page document of 21 MB + 1 byte under the
    default 20 MB limit: the backend returns no result, and the service's
    [parse_pdf] raises [PDFParsingException] for it. *)
Lemma service_raises_on_oversize_document :
  (parse_pdf format_mb_exact parser0 env_oversize world0).1 = Return None
  /\ (Service.parse_pdf format_mb_exact docling0 service0 env_oversize world0).1
     = Raise (PDFParsingException
                (lit "deepseek parsing returned no result for big.pdf"))
  /\ (Service.parse_pdf format_mb_exact docling0 service0 env_oversize world0).1
     <> Return None.
Proof. repeat split; by vm_compute. Qed.

(** C1 (amended).  For an existing, non-empty document whose size exceeds
    the byte limit, or which passes the size and signature checks and has
    more pages than the page limit, [parse_pdf] of the vision backend
    returns no result without raising; [parse_pdf] of the service turns
    that into a [PDFParsingException] ("... parsing returned no result
    for ..."). *)
Theorem limit_exceeded_skipped_by_backend_raised_by_service
    (format_mb : Z -> str)
    (docling_parse_pdf : Service.DoclingParser -> Env -> M World (option PdfContent))
    (self : DeepSeekParser) (name : str) (env : Env) (w : World) (size : Z) :
  path_exists env = Ok true ->
  stat_st_size env = Ok size -> size <> 0%Z ->
  (size > max_file_size_bytes self)%Z
  \/ (exists header pages,
        read_header env = Ok header
        /\ startswith Byte.eqb pdf_magic header = true
        /\ pdfium_len env = Ok pages /\ (pages > max_pages self)%Z) ->
  parse_pdf format_mb self env w = (Return None, w)
  /\ Service.parse_pdf format_mb docling_parse_pdf
       (Service.mkService name (Service.UseDeepSeek self)) env w
     = (Raise (PDFParsingException
                 (name ++ lit " parsing returned no result for " ++ pdf_name env)),
        w).
Proof.
  intros Hex Hstat Hne Hlimit.
  pose proof (limit_exceeded_skipped format_mb self env w size Hstat Hne Hlimit)
    as Hskip.
  split; [done|].
  unfold Service.parse_pdf, Service.backend_parse_pdf, try_except, bind, when_.
  rewrite Hex. simpl. by rewrite Hskip.
Qed.

Lemma limit_exceeded_skipped_by_backend_raised_by_service_witness :
  path_exists env_oversize = Ok true
  /\ stat_st_size env_oversize = Ok (21 * 1024 * 1024 + 1)%Z
  /\ (21 * 1024 * 1024 + 1)%Z <> 0%Z
  /\ parse_pdf format_mb_exact parser0 env_oversize world0 = (Return None, world0)
  /\ Service.parse_pdf format_mb_exact docling0 service0 env_oversize world0
     = (Raise (PDFParsingException
                 (lit "deepseek" ++ lit " parsing returned no result for "
                  ++ pdf_name env_oversize)),
        world0).
Proof.
  split; [reflexivity|]. split; [reflexivity|]. split; [lia|].
  apply (limit_exceeded_skipped_by_backend_raised_by_service format_mb_exact
           docling0 parser0 (lit "deepseek") env_oversize world0
           (21 * 1024 * 1024 + 1)%Z);
    [reflexivity|reflexivity|lia|left; vm_compute; reflexivity].
Defined.

(** C7 as stated, at a missing file and at a text file named like a PDF:
    the service raises [PDFValidationError] for both, the class the
    validator uses for a malformed input. *)
Lemma missing_file_error_class_is_not_distinct :
  (Service.parse_pdf format_mb_exact docling0 service0 env_missing world0).1
  = Raise (PDFValidationError (lit "PDF file not found: /tmp/missing.pdf"))
  /\ (_validate_pdf format_mb_exact parser0 env_bad_header world0).1
     = Raise (PDFValidationError
                (lit "File does not have PDF header: /tmp/notes.pdf"))
  /\ (Service.parse_pdf format_mb_exact docling0 service0 env_bad_header world0).1
     = Raise (PDFValidationError
                (lit "File does not have PDF header: /tmp/notes.pdf"))
  /\ class_of (PDFValidationError (lit "PDF file not found: /tmp/missing.pdf"))
     = class_of (PDFValidationError
                   (lit "File does not have PDF header: /tmp/notes.pdf")).
Proof. repeat split; by vm_compute. Qed.

(** C7 (amended).  On a path that does not exist, [parse_pdf] of the
    service raises [PDFValidationError] with the text "PDF file not
    found: <path>" (the class is the one validation failures have; the
    text tells it apart), whatever the backend is, and leaves the state
    untouched: neither validation nor the backend runs. *)
Theorem missing_file_raises_before_backend (format_mb : Z -> str)
    (docling_parse_pdf : Service.DoclingParser -> Env -> M World (option PdfContent))
    (self : Service.PDFParserService) (env : Env) (w : World) :
  path_exists env = Ok false ->
  Service.parse_pdf format_mb docling_parse_pdf self env w
  = (Raise (PDFValidationError (lit "PDF file not found: " ++ pdf_path env)), w).
Proof.
  intros Hex. unfold Service.parse_pdf, bind, when_. by rewrite Hex.
Qed.

Lemma missing_file_raises_before_backend_witness :
  path_exists env_missing = Ok false
  /\ Service.parse_pdf format_mb_exact docling0 service0 env_missing world0
     = (Raise (PDFValidationError
                 (lit "PDF file not found: " ++ pdf_path env_missing)), world0).
Proof.
  split; [reflexivity|].
  apply (missing_file_raises_before_backend format_mb_exact docling0 service0
           env_missing world0).
  reflexivity.
Defined.

(** ** Effects: outcomes *)

Section Yields.
Context {S : Type}.

Lemma yields_ret {A} (a : A) (Q : outcome A -> Prop) :
  Q (Return a) -> yields (ret a : M S A) Q.
Proof. by intros H s. Qed.

Lemma yields_raise {A} (e : exn) (Q : outcome A -> Prop) :
  Q (Raise e) -> yields (raise e : M S A) Q.
Proof. by intros H s. Qed.

(** After a step that always returns, the rest decides. *)
Lemma yields_bind {A B} (m : M S A) (k : A -> M S B) (R : A -> Prop)
    (Q : outcome B -> Prop) :
  yields m (fun r => exists a, r = Return a /\ R a) ->
  (forall a, R a -> yields (k a) Q) ->
  yields (bind m k) Q.
Proof.
  intros Hm Hk s. unfold bind. destruct (Hm s) as (a & Ha & HR).
  destruct (m s) as [r s']. simpl in Ha. subst r. by apply Hk.
Qed.

Lemma yields_call_ok {A} (r : ext A) (a : A) :
  r = Ok a -> yields (call r : M S A) (fun o => exists a', o = Return a' /\ a' = a).
Proof. intros -> s. by exists a. Qed.

End Yields.

Lemma yields_lift {A} (m : M World A) (Q : outcome A -> Prop) :
  yields m Q -> yields (lift m) Q.
Proof.
  intros Hm f. unfold lift. specialize (Hm (world f)).
  by destruct (m (world f)).
Qed.

(** ** Pages without text *)

Lemma blank_line_no_header (l : str) : blank l = true -> header_match l = None.
Proof.
  intros Hb. destruct (header_match l) as [[g1 g2]|] eqn:Hm; [|done].
  apply header_match_markers in Hm as [Hs Hl].
  destruct (span_pos_head (N.eqb HASH) l) as (c & x & -> & Hc); [lia|].
  apply N.eqb_eq in Hc as <-. done.
Qed.

Lemma blank_text_no_sections (text : str) :
  blank text = true -> _parse_markdown_to_sections text = [].
Proof.
  intros Hb. rewrite no_header_sections; [by rewrite Hb|].
  rewrite blank_split in Hb. apply Forall_forall. intros l Hl.
  apply blank_line_no_header.
  rewrite forallb_forall in Hb. apply Hb. by apply list_elem_of_In.
Qed.

Lemma blank_join_empty (n : nat) : blank (join [NL; NL] (replicate n [])) = true.
Proof.
  induction n as [|n IH]; [done|].
  destruct n as [|n]; [done|].
  change (replicate (S (S n)) []) with ([] :: replicate (S n) ([] : str)).
  change (join [NL; NL] ([] :: replicate (S n) []))
    with ([] ++ [NL; NL] ++ join [NL; NL] (replicate (S n) [])).
  by rewrite !blank_app, IH.
Qed.

Section Unreadable.
Context (self : DeepSeekParser) (env : Env).

Lemma lazy_load_returns :
  tokenizer_from_pretrained env = Ok tt ->
  model_from_pretrained env = Ok tt ->
  model_to_device env = Ok tt ->
  yields (_lazy_load_model env) (fun r => exists a, r = Return a /\ True).
Proof.
  intros Ht Hm Hd w. unfold _lazy_load_model, bind, get, modify, call, ret.
  simpl. destruct (_model w); [by exists tt|].
  rewrite Ht. simpl. rewrite Hm. simpl. rewrite Hd. by exists tt.
Qed.

Lemma mkdtemp_returns :
  mkdtemp env = Ok tt ->
  yields (do_mkdtemp env) (fun r => exists d, r = Return d /\ True).
Proof.
  intros H w. unfold do_mkdtemp, bind, get, modify, call, ret. rewrite H.
  simpl. eauto.
Qed.

Lemma render_pages_returns (d : positive) (page_nums : list nat) :
  forall image_paths,
  Forall (fun n => render_save env n = Ok tt) page_nums ->
  yields (render_pages env d page_nums image_paths)
    (fun r => exists a, r = Return a
              /\ a = image_paths ++ List.map (pair d) page_nums).
Proof.
  induction page_nums as [|n rest IH]; intros image_paths Hok w.
  - simpl. exists image_paths. by rewrite app_nil_r.
  - inversion Hok as [|? ? Hn Hrest]; subst. simpl.
    unfold bind at 1. rewrite Hn. simpl. unfold bind at 1. simpl.
    destruct (IH (image_paths ++ [(d, n)]) Hrest
                (save_image (d, n) w)) as (a & Ha & ->).
    eexists. split; [exact Ha|]. by rewrite <- app_assoc.
Qed.

Lemma extract_pages_returns (d : positive) (pages : Z) :
  pdfium_len env = Ok pages -> (pages <= max_pages self)%Z ->
  (forall n, (n < Z.to_nat pages)%nat -> render_save env n = Ok tt) ->
  yields (_extract_pages_as_images self env d)
    (fun r => exists a, r = Return a
              /\ a = List.map (pair d) (seq 0 (Z.to_nat pages))).
Proof.
  intros Hlen Hle Hok w. unfold _extract_pages_as_images, bind.
  rewrite Hlen. simpl. rewrite Z.min_l by done.
  apply (render_pages_returns d _ []).
  apply Forall_forall. intros n Hn. apply Hok.
  apply list_elem_of_In, in_seq in Hn. lia.
Qed.

Lemma extract_text_no_text {S} (cfg : Z * Z) (image : image_path) :
  resolution_config !! resolution self = Some cfg ->
  no_text (infer env image.2 cfg.1 cfg.2) ->
  yields (_extract_text_from_image_file self env image : M S str)
    (fun r => exists a, r = Return a /\ a = []).
Proof.
  intros Hcfg Hno s.
  unfold _extract_text_from_image_file, bind, try_except, call.
  rewrite Hcfg. simpl.
  destruct (infer env image.2 cfg.1 cfg.2) as [t|msg]; simpl in *.
  - exists t. by subst t.
  - by exists [].
Qed.

Lemma ocr_pages_no_text {S} (cfg : Z * Z) (image_paths : list image_path) :
  forall all_text,
  resolution_config !! resolution self = Some cfg ->
  Forall (fun image => no_text (infer env image.2 cfg.1 cfg.2)) image_paths ->
  yields (ocr_pages self env image_paths all_text : M S (list str))
    (fun r => exists a, r = Return a
              /\ a = all_text ++ replicate (length image_paths) []).
Proof.
  induction image_paths as [|image rest IH]; intros all_text Hcfg Hno.
  - intros s. simpl. exists all_text. by rewrite app_nil_r.
  - inversion Hno as [|? ? Himg Hrest]; subst. simpl.
    eapply yields_bind; [by apply (extract_text_no_text cfg)|].
    intros page_text -> s.
    destruct (IH (all_text ++ [[]]) Hcfg Hrest s) as (a & Ha & ->).
    eexists. split; [exact Ha|]. by rewrite <- app_assoc.
Qed.

End Unreadable.

(** When the two calls of the [finally] block succeed, the outcome of
    [parse_pdf] is the one of the [try] block and its handlers. *)
Lemma parse_pdf_outcome (format_mb : Z -> str) (self : DeepSeekParser)
    (env : Env) (w : World) :
  temp_dir_exists env = Ok tt -> shutil_rmtree env = Ok tt ->
  (parse_pdf format_mb self env w).1
  = (try_except (parse_body format_mb self env) parse_handler (mkFrame w None)).1.
Proof.
  intros Hex Hrm.
  destruct (parse_pdf_finally format_mb self env w) as [[H _]|(msg & _ & [H|H])];
    [done|congruence|congruence].
Qed.

(** C3 as stated, at a 2-page document on which inference fails on the
    first page and returns the empty string on the second: the backend
    returns a [PdfContent] without sections, and so does the service. *)
Lemma unreadable_document_is_returned :
  (parse_pdf format_mb_exact parser0 env_unreadable world0).1
  = Return (Some (empty_content parser0 2))
  /\ pc_sections (empty_content parser0 2) = []
  /\ raw_text (empty_content parser0 2) = [NL; NL]
  /\ (Service.parse_pdf format_mb_exact docling0 service0 env_unreadable world0).1
     = Return (Some (empty_content parser0 2)).
Proof. repeat split; by vm_compute. Qed.

(** C3 (amended).  On a document that passes validation, with the model
    loaded, every page rendered and the temporary directory removed
    without failure: when inference fails or returns the empty string on
    every page, and there is at least one page, the backend returns a
    [PdfContent] with no section and a [raw_text] made of the separators
    only; it raises [PDFParsingException] only when no page image was
    made at all. *)
Theorem no_text_on_every_page_is_returned (format_mb : Z -> str)
    (self : DeepSeekParser) (env : Env) (w : World)
    (size pages : Z) (header : list Byte.byte) (cfg : Z * Z) :
  resolution_config !! resolution self = Some cfg ->
  stat_st_size env = Ok size -> size <> 0%Z ->
  (size <= max_file_size_bytes self)%Z ->
  read_header env = Ok header -> startswith Byte.eqb pdf_magic header = true ->
  pdfium_len env = Ok pages -> (pages <= max_pages self)%Z ->
  tokenizer_from_pretrained env = Ok tt ->
  model_from_pretrained env = Ok tt ->
  model_to_device env = Ok tt ->
  mkdtemp env = Ok tt ->
  (forall n, (n < Z.to_nat pages)%nat -> render_save env n = Ok tt) ->
  (forall n, (n < Z.to_nat pages)%nat -> no_text (infer env n cfg.1 cfg.2)) ->
  temp_dir_exists env = Ok tt -> shutil_rmtree env = Ok tt ->
  (parse_pdf format_mb self env w).1 =
    if (0 <? pages)%Z then Return (Some (empty_content self pages))
    else Raise (PDFParsingException
                  (lit "Failed to parse PDF with DeepSeek OCR: "
                   ++ lit "No images extracted from PDF: " ++ pdf_path env)).
Proof.
  intros Hcfg Hstat Hne Hle Hhead Hmagic Hlen Hpages Htok Hmod Hdev Hmk Hrender
    Hinfer Hexists Hrmtree.
  rewrite parse_pdf_outcome by done.
  assert (yields (parse_body format_mb self env)
            (fun r => r = if (0 <? pages)%Z
                          then Return (Some (empty_content self pages))
                          else Raise (PDFParsingException
                                 (lit "No images extracted from PDF: "
                                  ++ pdf_path env)))) as Hbody.
  { unfold parse_body.
    eapply (yields_bind _ _ (fun _ => True)).
    { intros f. rewrite (validate_ok _ _ _ size header pages) by done.
      by exists true. }
    intros _ _.
    eapply yields_bind; [by apply yields_lift, lazy_load_returns|]. intros _ _.
    eapply yields_bind; [by apply yields_lift, mkdtemp_returns|]. intros d _.
    eapply (yields_bind _ _ (fun _ => True)); [intros f; by exists tt|].
    intros _ _.
    eapply yields_bind;
      [by apply yields_lift, (extract_pages_returns _ _ d pages)|].
    intros image_paths ->.
    destruct (Z.ltb_spec 0 pages) as [Hpos|Hzero].
    - eapply (yields_bind _ _ (fun _ => True)).
      { intros f. case_bool_decide as Hnil; [|by exists tt].
        apply (f_equal length) in Hnil.
        rewrite length_map, length_seq in Hnil. simpl in Hnil. lia. }
      intros _ _.
      eapply yields_bind.
      { apply (ocr_pages_no_text _ _ cfg); [done|].
        apply Forall_forall. intros [d' n] Hin.
        apply list_elem_of_In, in_map_iff in Hin as (n' & [= <- <-] & Hn).
        apply in_seq in Hn. simpl. apply Hinfer. lia. }
      intros all_text ->. apply yields_ret.
      rewrite length_map, length_seq. simpl app.
      rewrite blank_text_no_sections by apply blank_join_empty.
      unfold empty_content. by rewrite Z2Nat.id by lia.
    - replace (Z.to_nat pages) with 0%nat by lia. simpl.
      intros f. by unfold bind, when_, raise.
  }
  unfold try_except. specialize (Hbody (mkFrame w None)).
  destruct (parse_body format_mb self env (mkFrame w None)) as [r f].
  simpl in Hbody. subst r. by destruct (0 <? pages)%Z.
Qed.

Lemma no_text_on_every_page_is_returned_witness :
  resolution_config !! resolution parser0 = Some (1024, 640)%Z
  /\ (parse_pdf format_mb_exact parser0 env_unreadable world0).1 =
       if (0 <? 2)%Z then Return (Some (empty_content parser0 2))
       else Raise (PDFParsingException
                     (lit "Failed to parse PDF with DeepSeek OCR: "
                      ++ lit "No images extracted from PDF: "
                      ++ pdf_path env_unreadable)).
Proof.
  split; [by vm_compute|].
  apply (no_text_on_every_page_is_returned format_mb_exact parser0
           env_unreadable world0 51200 2 pdf_magic (1024, 640)%Z);
    try reflexivity; try lia; try (by vm_compute).
  intros [|[|n]] Hn; [exact I|reflexivity|lia].
Defined.

(** ** The pipeline on sample documents *)

(** A document with text on both pages: the page texts are joined by a
    blank line and segmented; the model ends up loaded and no temporary
    directory is left. *)
Lemma paper_is_parsed :
  parse_pdf format_mb_exact parser0 env_paper world0
  = (Return (Some (mkPdfContent
       [ mkPaperSection (lit "Title") (lit "Abstract text") 1;
         mkPaperSection (lit "Method") (lit "We parse.") 2 ]
       [] []
       (lit "# Title" ++ [NL] ++ lit "Abstract text" ++ [NL; NL]
        ++ lit "## Method" ++ [NL] ++ lit "We parse.")
       [] DEEPSEEK
       [ (lit "source", MStr (lit "deepseek-ocr"));
         (lit "model", MStr (lit "deepseek-ai/DeepSeek-OCR"));
         (lit "resolution", MStr (lit "base"));
         (lit "pages_processed", MInt 2) ])),
     mkWorld ∅ true true).
Proof. by vm_compute. Qed.

(** Before the [finally] block runs, the directory of the call exists and
    holds one image per page. *)
Lemma paper_images_exist_before_cleanup :
  let f := (try_except (parse_body format_mb_exact parser0 env_paper)
              parse_handler (mkFrame world0 None)).2 in
  temp_dir f = Some 1%positive
  /\ tmpfs (world f) !! 1%positive = Some ({[0%nat; 1%nat]} : gset nat).
Proof.
  split; [by vm_compute|].
  apply (bool_decide_eq_true_1 _). by vm_compute.
Qed.

(** A parser made by the constructor has a known resolution. *)
Lemma init_resolution_known (max_pages max_file_size_mb : Z)
    (model_name resolution : str) (self : DeepSeekParser) :
  __init__ max_pages max_file_size_mb model_name resolution = Return self ->
  is_Some (resolution_config !! DeepSeek.resolution self).
Proof.
  unfold __init__.
  destruct (resolution_config !! resolution) as [cfg|] eqn:Hcfg; [|done].
  intros [= <-]. simpl. by rewrite Hcfg.
Qed.

(** * Further properties *)

(** ** The header pattern, read without backtracking *)

Lemma try_down_None {A} (lo d : nat) (k : nat -> option A) :
  (forall n, (lo <= n <= lo + d)%nat -> k n = None) -> try_down lo d k = None.
Proof.
  induction d as [|d IH]; intros H; simpl.
  - by rewrite H by lia.
  - rewrite H by lia. apply IH. intros n Hn. apply H. lia.
Qed.

Lemma try_down_only_top {A} (lo d : nat) (k : nat -> option A) :
  (forall n, (lo <= n < lo + d)%nat -> k n = None) ->
  try_down lo d k = k (lo + d)%nat.
Proof.
  intros H. destruct d as [|d]; simpl.
  - by destruct (k (lo + 0)%nat).
  - destruct (k (lo + S d)%nat); [done|].
    apply try_down_None. intros n Hn. apply H. lia.
Qed.

Lemma greedy_at_least {A} (p : N -> bool) (lo : nat) (s : str)
    (k : nat -> option A) :
  greedy p lo None s k =
    if (span p s <? lo)%nat then None else try_down lo (span p s - lo) k.
Proof. done. Qed.

Lemma span_forallb (p : N -> bool) (s : str) (n : nat) :
  (n <= span p s)%nat -> forallb p (take n s) = true.
Proof.
  intros Hn. apply forallb_forall. intros c Hc.
  pose proof (span_take p s n Hn) as H. rewrite Forall_forall in H.
  apply H. by apply list_elem_of_In.
Qed.

Lemma strip_blank_app_l (a x : str) : blank a = true -> strip (a ++ x) = strip x.
Proof. intros Ha. unfold strip. by rewrite lstrip_blank_app. Qed.

Lemma span_below_markers (line : str) (i : nat) :
  (i < span (N.eqb HASH) line)%nat -> span isspace (drop i line) = 0%nat.
Proof.
  intros (c & x & -> & Hc)%span_drop_head.
  apply N.eqb_eq in Hc as <-. done.
Qed.

Lemma span_no_newline (s : str) :
  Forall (fun c => c <> NL) s -> span (fun c => negb (c =? NL)) s = length s.
Proof.
  intros H. apply span_all. eapply Forall_impl; [exact H|].
  intros c Hc. simpl. by apply N.eqb_neq in Hc as ->.
Qed.

(** The two inner repetitions of the pattern on a rest [r2] without
    newline: they match all of a non-empty [r2]. *)
Lemma title_group (g1 r2 : str) :
  Forall (fun c => c <> NL) r2 ->
  greedy (fun c => negb (c =? NL)) 1 None r2
    (fun m => if at_end (drop m r2) then Some (g1, take m r2) else None)
  = if (length r2 =? 0)%nat then None else Some (g1, r2).
Proof.
  intros Hnl. rewrite greedy_at_least, span_no_newline by done.
  destruct r2 as [|c r2]; [done|]. simpl length.
  change (S (length r2) <? 1)%nat with false. cbv iota.
  change (S (length r2) =? 0)%nat with false. cbv iota.
  apply try_down_top.
  replace (1 + (S (length r2) - 1))%nat with (length (c :: r2)) by (simpl; lia).
  by rewrite drop_all, (take_ge (c :: r2)).
Qed.

Lemma header_of_scan_line (line : str) :
  Forall (fun c => c <> NL) line -> header_of line = header_scan line.
Proof.
  intros Hnl. unfold header_of, header_scan.
  set (k := span (N.eqb HASH) line). set (r := drop k line).
  destruct (Nat.leb_spec 1 k) as [Hk1|Hk0]; cbn [andb]; cycle 1.
  { assert (header_match line = None) as ->; [|done].
    destruct (header_match line) as [[g1 g2]|] eqn:Hm; [|done].
    apply header_match_markers in Hm. fold k in Hm. lia. }
  destruct (Nat.leb_spec k 6) as [Hk6|Hk7]; cbn [andb]; cycle 1.
  { assert (header_match line = None) as ->; [|done].
    destruct (header_match line) as [[g1 g2]|] eqn:Hm; [|done].
    apply header_match_markers in Hm. fold k in Hm. lia. }
  assert (Forall (fun c => c <> NL) r) as Hr by (by apply Forall_drop).
  (* the first group takes all the markers *)
  assert (header_match line =
          greedy isspace 1 None r (fun j =>
            greedy (fun c => negb (c =? NL)) 1 None (drop j r) (fun m =>
              if at_end (drop m (drop j r))
              then Some (take k line, take m (drop j r)) else None))) as ->.
  { unfold header_match, greedy at 1. fold k.
    rewrite Nat.min_r by lia.
    destruct (Nat.ltb_spec k 1) as [|_]; [lia|].
    rewrite try_down_only_top.
    - by replace (1 + (k - 1))%nat with k by lia.
    - intros i Hi. cbv zeta. rewrite greedy_at_least.
      by rewrite span_below_markers by (fold k; lia). }
  (* the whitespace, then the title *)
  rewrite greedy_at_least.
  assert (forall j, greedy (fun c => negb (c =? NL)) 1 None (drop j r) (fun m =>
              if at_end (drop m (drop j r))
              then Some (take k line, take m (drop j r)) else None)
            = if (length (drop j r) =? 0)%nat then None
              else Some (take k line, drop j r)) as Htitle.
  { intros j. apply title_group. by apply Forall_drop. }
  set (w := span isspace r).
  pose proof (span_le_length isspace r) as Hw. fold w in Hw.
  assert (length (take k line) = k) as Hlen.
  { rewrite length_take. pose proof (span_le_length (N.eqb HASH) line).
    fold k in H. lia. }
  destruct (Nat.leb_spec 1 w) as [Hw1|Hw0]; cbn [andb]; cycle 1.
  { destruct (Nat.ltb_spec w 1); [done|lia]. }
  destruct (Nat.ltb_spec w 1) as [|_]; [lia|].
  destruct (Nat.lt_ge_cases w (length r)) as [Hlt|Hge].
  - (* something follows the whitespace *)
    destruct (Nat.leb_spec 2 (length r)) as [_|]; [|lia].
    rewrite (try_down_top _ _ _ (take k line, drop w r)).
    + simpl. rewrite Hlen. f_equal. f_equal.
      rewrite <- (take_drop w r) at 2.
      rewrite strip_blank_app_l; [done|]. by apply span_forallb.
    + replace (1 + (w - 1))%nat with w by lia. rewrite Htitle.
      rewrite length_drop.
      destruct (Nat.eqb_spec (length r - w) 0); [lia|done].
  - (* the rest of the line is whitespace *)
    assert (w = length r) as Hwr by lia.
    assert (blank r = true) as Hblank.
    { rewrite <- (take_ge r w) by lia. by apply span_forallb. }
    destruct w as [|[|w]]; [lia| |].
    + (* a single whitespace character: no title is left *)
      destruct (Nat.leb_spec 2 (length r)); [lia|].
      simpl. rewrite Htitle, length_drop.
      by destruct (Nat.eqb_spec (length r - 1) 0); [|lia].
    + (* the last whitespace character is given to the title *)
      destruct (Nat.leb_spec 2 (length r)) as [_|]; [|lia].
      replace (S (S w) - 1)%nat with (S w) by lia.
      assert (try_down 1 (S w) (fun j =>
                greedy (fun c => negb (c =? NL)) 1 None (drop j r) (fun m =>
                  if at_end (drop m (drop j r))
                  then Some (take k line, take m (drop j r)) else None))
              = Some (take k line, drop (S w) r)) as ->.
      { simpl try_down. rewrite Htitle, length_drop.
        destruct (Nat.eqb_spec (length r - S (S w)) 0) as [_|]; [|lia].
        apply try_down_top. rewrite Htitle, length_drop.
        change (1 + w)%nat with (S w).
        by destruct (Nat.eqb_spec (length r - S w) 0); [lia|]. }
      simpl. rewrite Hlen. f_equal. f_equal.
      rewrite (strip_blank r Hblank). apply strip_blank.
      rewrite <- (take_drop (S w) r), blank_app in Hblank.
      by apply andb_prop in Hblank as [_ ?].
Qed.

Lemma no_newline_check (s : str) :
  forallb (fun c => negb (c =? NL)) s = true -> Forall (fun c => c <> NL) s.
Proof.
  intros H. apply Forall_forall. intros c Hc.
  rewrite forallb_forall in H. apply list_elem_of_In, H in Hc.
  apply negb_true_iff in Hc. by apply N.eqb_neq.
Qed.

(** X1.  On a line without newline (every line the loop sees), the
    backtracking pattern match agrees with a single left-to-right scan:
    the line is a header exactly when it starts with one to six markers
    followed by a whitespace character and at least one more character;
    the depth is the number of markers and the title is the trimmed rest
    of the line (empty when the rest is all whitespace). *)
Theorem header_match_is_one_scan (line : str) :
  Forall (fun c => c <> NL) line -> header_of line = header_scan line.
Proof. apply header_of_scan_line. Qed.

Lemma header_match_is_one_scan_witness :
  Forall (fun c => c <> NL) (lit "###  Related Work ")
  /\ header_of (lit "###  Related Work ") = header_scan (lit "###  Related Work ").
Proof.
  assert (Forall (fun c => c <> NL) (lit "###  Related Work ")) as H.
  { apply no_newline_check. by vm_compute. }
  split; [exact H|]. exact (header_match_is_one_scan _ H).
Defined.

(** Marker and two blanks: a header with an empty title.  Marker and one
    blank: not a header. *)
Lemma header_scan_edges :
  header_scan (lit "#  ") = Some (1%nat, [])
  /\ header_scan (lit "# ") = None
  /\ header_scan (lit "#Title") = None
  /\ header_scan (lit " # Title") = None.
Proof. repeat split; by vm_compute. Qed.

(** ** Levels *)

(** X2.  Every emitted section has a level between 1 and 6. *)
Theorem emitted_levels_in_range (text : str) :
  Forall (fun s => (1 <= level s <= 6)%Z) (_parse_markdown_to_sections text).
Proof. apply levels_in_range. Qed.

Lemma split_around_line (a h b : str) :
  Forall (fun c => c <> NL) h ->
  split NL (a ++ NL :: h ++ NL :: b) = split NL a ++ h :: split NL b.
Proof.
  intros Hh. by rewrite split_app, split_app, (split_no_sep NL h).
Qed.

(** X3.  The section opened by the last header line of a text, when
    non-blank lines follow it, is emitted last, with the title of that
    header and with the number of its markers as level. *)
Theorem last_header_keeps_depth (a h b g1 g2 : str) :
  Forall (fun c => c <> NL) h ->
  header_match h = Some (g1, g2) ->
  Forall (fun l => header_match l = None) (split NL b) ->
  blank b = false ->
  last (_parse_markdown_to_sections (a ++ NL :: h ++ NL :: b))
  = Some (mkPaperSection (strip g2)
            (strip (accumulate
               (List.filter (fun l => negb (blank l)) (split NL b))))
            (Z.of_nat (length g1))).
Proof.
  intros Hh Hm Hb Hnb. unfold _parse_markdown_to_sections.
  rewrite split_around_line, run_app, run_cons by done.
  rewrite (step_header _ _ _ _ Hm), run_no_header by done.
  unfold finish. simpl.
  rewrite truthy_strip, blank_accumulate, forallb_blank_filter, <- blank_split.
  rewrite Hnb. simpl. apply last_snoc.
Qed.

Lemma last_header_keeps_depth_witness :
  Forall (fun c => c <> NL) (lit "### Method")
  /\ last (_parse_markdown_to_sections
             (lit "# Intro" ++ NL :: lit "### Method" ++ NL :: lit "We parse."))
     = Some (mkPaperSection (strip (lit "Method"))
               (strip (accumulate
                  (List.filter (fun l => negb (blank l))
                     (split NL (lit "We parse.")))))
               (Z.of_nat (length (lit "###")))).
Proof.
  assert (Forall (fun c => c <> NL) (lit "### Method")) as H.
  { apply no_newline_check. by vm_compute. }
  split; [exact H|].
  apply (last_header_keeps_depth (lit "# Intro") (lit "### Method")
           (lit "We parse.") (lit "###") (lit "Method") H);
    [by vm_compute|vm_compute; repeat constructor|by vm_compute].
Defined.

Lemma run_sections_level_one (lines : list str) : forall st,
  Forall (fun s => level s = 1%Z) (sections st) ->
  Forall (fun s => level s = 1%Z) (sections (run st lines)).
Proof.
  induction lines as [|l ls IH]; intros st H; [done|].
  rewrite run_cons. apply IH. unfold step.
  destruct (header_match l) as [[g1 g2]|]; simpl.
  - unfold save_previous. destruct (truthy _); [|done].
    apply Forall_app. split; [done|]. by constructor.
  - by destruct (truthy (strip l)).
Qed.

(** X4.  Every emitted section except the last one has level 1, whatever
    the depth of the header that opened it. *)
Theorem earlier_sections_have_level_one (text : str)
    (front : list PaperSection) (s : PaperSection) :
  _parse_markdown_to_sections text = front ++ [s] ->
  Forall (fun x => level x = 1%Z) front.
Proof.
  unfold _parse_markdown_to_sections, finish.
  pose proof (run_sections_level_one (split NL text) init (Forall_nil_2 _)) as H.
  destruct (truthy _).
  - intros [<- _]%app_inj_tail. done.
  - intros Heq. rewrite Heq in H. by apply Forall_app in H as [? _].
Qed.

Lemma earlier_sections_have_level_one_witness :
  _parse_markdown_to_sections text_two_levels = [sec_A] ++ [sec_B]
  /\ Forall (fun x => level x = 1%Z) [sec_A].
Proof.
  assert (_parse_markdown_to_sections text_two_levels = [sec_A] ++ [sec_B])
    as H by (by vm_compute).
  split; [exact H|].
  exact (earlier_sections_have_level_one text_two_levels [sec_A] sec_B H).
Defined.

(** ** Counting and stability *)

Lemma length_header_titles (lines : list str) :
  length (omap (fun l => (fun g => strip g.2) <$> header_match l) lines)
  = length (List.filter is_header lines).
Proof.
  induction lines as [|l ls IH]; [done|].
  change (omap (fun l => (fun g => strip g.2) <$> header_match l) (l :: ls))
    with (match (fun g => strip g.2) <$> header_match l with
          | Some t =>
              t :: omap (fun l => (fun g => strip g.2) <$> header_match l) ls
          | None => omap (fun l => (fun g => strip g.2) <$> header_match l) ls
          end).
  simpl List.filter. unfold is_header at 1.
  destruct (header_match l); simpl; by rewrite IH.
Qed.

(** X5.  There are never more sections than header lines plus one. *)
Theorem at_most_one_section_per_header (text : str) :
  (length (_parse_markdown_to_sections text)
   <= 1 + length (List.filter is_header (split NL text)))%nat.
Proof.
  pose proof (sublist_length _ _ (emitted_titles_sublist text)) as H.
  rewrite length_map in H. simpl in H. by rewrite length_header_titles in H.
Qed.

Lemma run_skips_blank (lines : list str) : forall st,
  run st lines = run st (List.filter (fun l => negb (blank l)) lines).
Proof.
  induction lines as [|l ls IH]; intros st; [done|]. simpl List.filter.
  destruct (blank l) eqn:Hl; simpl negb; cbv iota.
  - rewrite run_cons, (step_no_header _ _ (blank_line_no_header _ Hl)), Hl.
    apply IH.
  - rewrite !run_cons. apply IH.
Qed.

(** X6.  Whitespace-only lines do not matter: two texts with the same
    non-blank lines, in the same order, give the same sections. *)
Theorem blank_lines_do_not_matter (text1 text2 : str) :
  List.filter (fun l => negb (blank l)) (split NL text1)
  = List.filter (fun l => negb (blank l)) (split NL text2) ->
  _parse_markdown_to_sections text1 = _parse_markdown_to_sections text2.
Proof.
  intros H. unfold _parse_markdown_to_sections.
  by rewrite (run_skips_blank (split NL text1)), H, <- run_skips_blank.
Qed.

Lemma blank_lines_do_not_matter_witness :
  List.filter (fun l => negb (blank l))
    (split NL (lit "# A" ++ [NL; 32; 9; NL; NL] ++ lit "foo" ++ [NL]))
  = List.filter (fun l => negb (blank l)) (split NL (lit "# A" ++ [NL] ++ lit "foo"))
  /\ _parse_markdown_to_sections (lit "# A" ++ [NL; 32; 9; NL; NL] ++ lit "foo" ++ [NL])
     = _parse_markdown_to_sections (lit "# A" ++ [NL] ++ lit "foo").
Proof.
  assert (List.filter (fun l => negb (blank l))
            (split NL (lit "# A" ++ [NL; 32; 9; NL; NL] ++ lit "foo" ++ [NL]))
          = List.filter (fun l => negb (blank l))
              (split NL (lit "# A" ++ [NL] ++ lit "foo"))) as H by (by vm_compute).
  split; [exact H|]. exact (blank_lines_do_not_matter _ _ H).
Defined.

Lemma run_sections_prefix (lines : list str) : forall st,
  sections st `prefix_of` sections (run st lines).
Proof.
  induction lines as [|l ls IH]; intros st; [done|].
  rewrite run_cons. etrans; [|apply IH]. unfold step.
  destruct (header_match l) as [[g1 g2]|]; simpl.
  - unfold save_previous. destruct (truthy _); [|done].
    by apply prefix_app_r.
  - by destruct (truthy (strip l)).
Qed.

Lemma finish_sections_prefix (st : State) : sections st `prefix_of` finish st.
Proof. unfold finish. destruct (truthy _); [by apply prefix_app_r|done]. Qed.

(** X7.  Appending lines to a text never changes the sections before its
    last one: they stay in place, unchanged, at the start of the
    result. *)
Theorem earlier_sections_are_stable (a b : str)
    (front : list PaperSection) (s : PaperSection) :
  _parse_markdown_to_sections a = front ++ [s] ->
  front `prefix_of` _parse_markdown_to_sections (a ++ NL :: b).
Proof.
  intros Ha.
  assert (front `prefix_of` sections (run init (split NL a))) as Hfront.
  { revert Ha. unfold _parse_markdown_to_sections, finish.
    destruct (truthy _).
    - by intros [<- _]%app_inj_tail.
    - intros ->. by apply prefix_app_r. }
  unfold _parse_markdown_to_sections. rewrite split_app, run_app.
  etrans; [exact Hfront|]. etrans; [apply run_sections_prefix|].
  apply finish_sections_prefix.
Qed.

Lemma earlier_sections_are_stable_witness :
  _parse_markdown_to_sections text_two_sections = [sec_A] ++ [sec_B]
  /\ [sec_A] `prefix_of`
       _parse_markdown_to_sections (text_two_sections ++ NL :: lit "more").
Proof.
  assert (_parse_markdown_to_sections text_two_sections = [sec_A] ++ [sec_B])
    as H by (by vm_compute).
  split; [exact H|].
  exact (earlier_sections_are_stable text_two_sections (lit "more") [sec_A] sec_B H).
Defined.

Lemma step_header_twice (st : State) (h1 h2 g1 g2 g1' g2' : str) :
  header_match h1 = Some (g1, g2) -> header_match h2 = Some (g1', g2') ->
  step (step st h1) h2 = step st h2.
Proof.
  intros H1 H2.
  by rewrite (step_header _ _ _ _ H1), !(step_header _ _ _ _ H2).
Qed.

(** X8.  A header line that is directly followed by another header line
    opens no section of its own: deleting it does not change the
    result. *)
Theorem header_without_content_is_dropped (a h1 h2 b : str) :
  Forall (fun c => c <> NL) h1 -> Forall (fun c => c <> NL) h2 ->
  is_header h1 = true -> is_header h2 = true ->
  _parse_markdown_to_sections (a ++ NL :: h1 ++ NL :: h2 ++ NL :: b)
  = _parse_markdown_to_sections (a ++ NL :: h2 ++ NL :: b).
Proof.
  unfold is_header. intros Hn1 Hn2 H1 H2.
  destruct (header_match h1) as [[g1 g2]|] eqn:Hm1; [|done].
  destruct (header_match h2) as [[g1' g2']|] eqn:Hm2; [|done].
  unfold _parse_markdown_to_sections.
  rewrite (split_around_line a h1) by done.
  rewrite (split_around_line a h2) by done.
  rewrite (split_app NL h2 b), (split_no_sep NL h2) by done.
  rewrite !run_app. simpl app. rewrite !run_cons.
  by rewrite (step_header_twice _ _ _ _ _ _ _ Hm1 Hm2).
Qed.

Lemma header_without_content_is_dropped_witness :
  Forall (fun c => c <> NL) (lit "# Old") /\ Forall (fun c => c <> NL) (lit "## New")
  /\ _parse_markdown_to_sections
       (lit "intro" ++ NL :: lit "# Old" ++ NL :: lit "## New" ++ NL :: lit "body")
     = _parse_markdown_to_sections
         (lit "intro" ++ NL :: lit "## New" ++ NL :: lit "body").
Proof.
  assert (Forall (fun c => c <> NL) (lit "# Old")) as H1
    by (apply no_newline_check; by vm_compute).
  assert (Forall (fun c => c <> NL) (lit "## New")) as H2
    by (apply no_newline_check; by vm_compute).
  split; [exact H1|]. split; [exact H2|].
  apply (header_without_content_is_dropped (lit "intro") (lit "# Old")
           (lit "## New") (lit "body") H1 H2); by vm_compute.
Defined.

(** ** Validation *)

Section ValidationMore.
Context (format_mb : Z -> str) (self : DeepSeekParser) (env : Env).

Lemma validate_outcome_any_state {S1 S2} (s1 : S1) (s2 : S2) :
  (_validate_pdf format_mb self env s1).1 = (_validate_pdf format_mb self env s2).1.
Proof.
  unfold _validate_pdf, try_except, bind, call, when_, raise, ret.
  destruct (stat_st_size env); simpl; [|done].
  destruct (_ =? 0)%Z; simpl; [done|].
  destruct (_ >? _)%Z; simpl; [done|].
  destruct (read_header env); simpl; [|done].
  destruct (negb _); simpl; [done|].
  destruct (pdfium_len env); simpl; [|done].
  by destruct (_ >? _)%Z.
Qed.

Lemma validate_only_validation_errors {S} (s : S) :
  (_validate_pdf format_mb self env s).1 = Return true
  \/ exists msg, (_validate_pdf format_mb self env s).1
                 = Raise (PDFValidationError msg).
Proof.
  unfold _validate_pdf, try_except, bind, call, when_, raise, ret.
  destruct (stat_st_size env); simpl; [|by eauto].
  destruct (_ =? 0)%Z; simpl; [by eauto|].
  destruct (_ >? _)%Z; simpl; [by eauto|].
  destruct (read_header env); simpl; [|by eauto].
  destruct (negb _); simpl; [by eauto|].
  destruct (pdfium_len env); simpl; [|by eauto].
  destruct (_ >? _)%Z; simpl; by eauto.
Qed.

Lemma validate_passes_only_if {S} (s : S) :
  (_validate_pdf format_mb self env s).1 = Return true ->
  exists size header pages,
    stat_st_size env = Ok size /\ size <> 0%Z
    /\ (size <= max_file_size_bytes self)%Z
    /\ read_header env = Ok header
    /\ startswith Byte.eqb pdf_magic header = true
    /\ pdfium_len env = Ok pages /\ (pages <= max_pages self)%Z.
Proof.
  unfold _validate_pdf, try_except, bind, call, when_, raise, ret.
  destruct (stat_st_size env) as [size|]; simpl; [|done].
  destruct (Z.eqb_spec size 0); simpl; [done|].
  destruct (Z.gtb_spec size (max_file_size_bytes self)); simpl; [done|].
  destruct (read_header env) as [header|]; simpl; [|done].
  destruct (startswith Byte.eqb pdf_magic header) eqn:Hmagic; simpl; [|done].
  destruct (pdfium_len env) as [pages|]; simpl; [|done].
  destruct (Z.gtb_spec pages (max_pages self)); simpl; [done|].
  intros _. exists size, header, pages. repeat split; (done || lia).
Qed.

End ValidationMore.

(** X9.  Validation has two outcomes only: it returns [True], or it raises
    [PDFValidationError]; no other exception leaves it, and it changes
    nothing. *)
Theorem validation_raises_only_validation_errors {S} (format_mb : Z -> str)
    (self : DeepSeekParser) (env : Env) (s : S) :
  (_validate_pdf format_mb self env s).2 = s
  /\ ((_validate_pdf format_mb self env s).1 = Return true
      \/ exists msg, (_validate_pdf format_mb self env s).1
                     = Raise (PDFValidationError msg)).
Proof.
  split; [apply validate_stateless|apply validate_only_validation_errors].
Qed.

(** X10.  Validation passes exactly when the four checks pass: the file
    can be read and is not empty, its size is within the byte limit, its
    first bytes are the PDF signature, and the PDF reader opens it and
    counts no more pages than the page limit. *)
Theorem validation_passes_iff {S} (format_mb : Z -> str)
    (self : DeepSeekParser) (env : Env) (s : S) :
  (_validate_pdf format_mb self env s).1 = Return true
  <-> exists size header pages,
        stat_st_size env = Ok size /\ size <> 0%Z
        /\ (size <= max_file_size_bytes self)%Z
        /\ read_header env = Ok header
        /\ startswith Byte.eqb pdf_magic header = true
        /\ pdfium_len env = Ok pages /\ (pages <= max_pages self)%Z.
Proof.
  split; [apply validate_passes_only_if|].
  intros (size & header & pages & ? & ? & ? & ? & ? & ? & ?).
  by rewrite (validate_ok _ _ _ size header pages).
Qed.

(** X11.  A file that cannot be read makes validation raise
    [PDFValidationError] with the text of the underlying error after
    "Error validating PDF <path>: ": when [stat] fails, when opening the
    file fails after the size checks, and when the PDF reader fails after
    the signature check. *)
Theorem io_errors_become_validation_errors {S} (format_mb : Z -> str)
    (self : DeepSeekParser) (env : Env) (s : S) (msg : str) :
  stat_st_size env = Fails msg
  \/ (exists size, stat_st_size env = Ok size /\ size <> 0%Z
        /\ (size <= max_file_size_bytes self)%Z
        /\ (read_header env = Fails msg
            \/ exists header, read_header env = Ok header
                 /\ startswith Byte.eqb pdf_magic header = true
                 /\ pdfium_len env = Fails msg)) ->
  _validate_pdf format_mb self env s
  = (Raise (PDFValidationError
              (lit "Error validating PDF " ++ pdf_path env ++ lit ": " ++ msg)), s).
Proof.
  intros H.
  unfold _validate_pdf, try_except, bind, call, when_, raise, ret.
  destruct H as [->|(size & -> & Hne & Hle & H)]; [done|]. simpl.
  destruct (Z.eqb_spec size 0); [done|]. simpl.
  destruct (Z.gtb_spec size (max_file_size_bytes self)); [lia|]. simpl.
  destruct H as [->|(header & -> & Hmagic & ->)]; [done|].
  simpl. by rewrite Hmagic.
Qed.

Lemma io_errors_become_validation_errors_witness :
  stat_st_size env_missing = Fails (lit "No such file")
  /\ _validate_pdf format_mb_exact parser0 env_missing world0
     = (Raise (PDFValidationError
                 (lit "Error validating PDF " ++ pdf_path env_missing
                  ++ lit ": " ++ lit "No such file")), world0).
Proof.
  split; [reflexivity|].
  apply (io_errors_become_validation_errors format_mb_exact parser0 env_missing
           world0 (lit "No such file")).
  left. reflexivity.
Defined.

(** ** Validation failures in [parse_pdf] *)

Lemma parse_pdf_on_validation_error (format_mb : Z -> str)
    (self : DeepSeekParser) (env : Env) (w : World) (msg : str) :
  (_validate_pdf format_mb self env w).1 = Raise (PDFValidationError msg) ->
  parse_pdf format_mb self env w
  = (if contains (lit "too large") (lower msg)
        || contains (lit "too many pages") (lower msg)
     then Return None else Raise (PDFValidationError msg), w).
Proof.
  intros Hv.
  rewrite (validate_outcome_any_state _ _ _ w (mkFrame w None)) in Hv.
  pose proof (validate_stateless format_mb self env (mkFrame w None)) as Hs.
  unfold parse_pdf, try_finally, try_except, parse_body.
  unfold bind at 1.
  destruct (_validate_pdf format_mb self env (mkFrame w None)) as [r f].
  simpl in Hv, Hs. subst r f. simpl.
  by destruct (_ || _).
Qed.

(** X12.  When validation fails, [parse_pdf] of the vision backend
    returns no result if the lowered text of the error contains "too
    large" or "too many pages", and otherwise raises that same
    [PDFValidationError] again, unwrapped; no model is loaded and no
    directory is made. *)
Theorem validation_failure_is_skipped_or_raised_again (format_mb : Z -> str)
    (self : DeepSeekParser) (env : Env) (w : World) (msg : str) :
  (_validate_pdf format_mb self env w).1 = Raise (PDFValidationError msg) ->
  parse_pdf format_mb self env w
  = (if contains (lit "too large") (lower msg)
        || contains (lit "too many pages") (lower msg)
     then Return None else Raise (PDFValidationError msg), w).
Proof. apply parse_pdf_on_validation_error. Qed.

Lemma validation_failure_is_skipped_or_raised_again_witness :
  (_validate_pdf format_mb_exact parser0 env_bad_header world0).1
  = Raise (PDFValidationError (lit "File does not have PDF header: /tmp/notes.pdf"))
  /\ parse_pdf format_mb_exact parser0 env_bad_header world0
     = (if contains (lit "too large")
             (lower (lit "File does not have PDF header: /tmp/notes.pdf"))
           || contains (lit "too many pages")
                (lower (lit "File does not have PDF header: /tmp/notes.pdf"))
        then Return None
        else Raise (PDFValidationError
                      (lit "File does not have PDF header: /tmp/notes.pdf")),
        world0).
Proof.
  assert ((_validate_pdf format_mb_exact parser0 env_bad_header world0).1
          = Raise (PDFValidationError
                     (lit "File does not have PDF header: /tmp/notes.pdf")))
    as H by (by vm_compute).
  split; [exact H|].
  exact (validation_failure_is_skipped_or_raised_again format_mb_exact parser0
           env_bad_header world0 _ H).
Defined.

Lemma contains_app_r (needle a b : str) :
  contains needle b = true -> contains needle (a ++ b) = true.
Proof.
  intros H. induction a as [|c a IH]; [done|].
  change (startswith N.eqb needle ((c :: a) ++ b)
          || contains needle (a ++ b) = true).
  rewrite IH. apply orb_true_r.
Qed.

(** X13.  A file without the PDF signature whose path contains "too
    large" in any letter case is not reported as malformed: [parse_pdf]
    returns no result for it, as for a file over the size limit. *)
Theorem bad_header_is_skipped_by_its_name (format_mb : Z -> str)
    (self : DeepSeekParser) (env : Env) (w : World)
    (size : Z) (header : list Byte.byte) :
  stat_st_size env = Ok size -> size <> 0%Z ->
  (size <= max_file_size_bytes self)%Z ->
  read_header env = Ok header ->
  startswith Byte.eqb pdf_magic header = false ->
  contains (lit "too large") (lower (pdf_path env)) = true ->
  parse_pdf format_mb self env w = (Return None, w).
Proof.
  intros Hstat Hne Hle Hhead Hmagic Hname.
  rewrite (parse_pdf_on_validation_error _ _ _ _
             (lit "File does not have PDF header: " ++ pdf_path env)).
  - by rewrite lower_app, (contains_app_r _ _ _ Hname).
  - unfold _validate_pdf, try_except, bind, call, when_, raise, ret.
    rewrite Hstat. simpl.
    destruct (Z.eqb_spec size 0); [done|]. simpl.
    destruct (Z.gtb_spec size (max_file_size_bytes self)); [lia|]. simpl.
    rewrite Hhead. simpl. by rewrite Hmagic.
Qed.

Lemma bad_header_is_skipped_by_its_name_witness :
  contains (lit "too large") (lower (lit "/data/Too Large to fail.pdf")) = true
  /\ parse_pdf format_mb_exact parser0
       (mkEnv (lit "/data/Too Large to fail.pdf") (lit "Too Large to fail.pdf")
          (Ok true) (Ok 5%Z)
          (Ok [Byte.x68; Byte.x65; Byte.x6c; Byte.x6c; Byte.x6f])
          (Fails (lit "Failed to load document")) (fun _ => Fails (lit "no page"))
          (Ok tt) (Ok tt) (Ok tt) (Ok tt) (fun _ _ _ => Fails (lit "no image"))
          (Ok tt) (Ok tt))
       world0
     = (Return None, world0).
Proof.
  split; [by vm_compute|].
  apply (bad_header_is_skipped_by_its_name format_mb_exact parser0 _ world0 5
           [Byte.x68; Byte.x65; Byte.x6c; Byte.x6c; Byte.x6f]);
    try reflexivity; try lia; by vm_compute.
Defined.

(** ** What [parse_pdf] lets out *)

Lemma parse_handler_outcome (e : exn) (f : Frame) :
  match (parse_handler e f).1 with
  | Return r => r = None
  | Raise e' => parser_error e'
  end.
Proof.
  destruct e as [m|m|m|m]; simpl; try (by right).
  destruct (_ || _); simpl; [done|by left].
Qed.

Lemma parse_try_raises_parser_errors (format_mb : Z -> str)
    (self : DeepSeekParser) (env : Env) (f0 : Frame) :
  match (try_except (parse_body format_mb self env) parse_handler f0).1 with
  | Return _ => True
  | Raise e => parser_error e
  end.
Proof.
  unfold try_except.
  destruct (parse_body format_mb self env f0) as [[r|e] f]; [done|].
  pose proof (parse_handler_outcome e f) as H.
  by destruct (parse_handler e f).1.
Qed.

(** A result of [parse_pdf] is a result of its [try] block. *)
Lemma parse_pdf_returns_inv (format_mb : Z -> str) (self : DeepSeekParser)
    (env : Env) (w : World) (r : option PdfContent) :
  (parse_pdf format_mb self env w).1 = Return r ->
  (try_except (parse_body format_mb self env) parse_handler (mkFrame w None)).1
  = Return r.
Proof.
  destruct (parse_pdf_finally format_mb self env w) as [[H _]|(msg & H & _)];
    congruence.
Qed.

(** X14.  Whatever the file system, the renderer and the model do, what
    [parse_pdf] of the vision backend raises is a [PDFValidationError] or
    a [PDFParsingException], with one exception: a failure of
    [temp_dir.exists()] or of [shutil.rmtree] in the [finally] block,
    which is raised as it is. *)
Theorem parse_pdf_raises_parser_errors_or_cleanup_failure
    (format_mb : Z -> str) (self : DeepSeekParser) (env : Env) (w : World) :
  match (parse_pdf format_mb self env w).1 with
  | Return _ => True
  | Raise e =>
      parser_error e
      \/ exists msg, e = OtherException msg
           /\ (temp_dir_exists env = Fails msg \/ shutil_rmtree env = Fails msg)
  end.
Proof.
  destruct (parse_pdf_finally format_mb self env w) as [[-> _]|(msg & -> & H)].
  - pose proof (parse_try_raises_parser_errors format_mb self env
                  (mkFrame w None)) as H.
    destruct (try_except _ _ _).1; [done|by left].
  - right. by exists msg.
Qed.

(** ** What a successful [parse_pdf] returns *)

Lemma bind_returns_inv {S A B} (m : M S A) (k : A -> M S B) (s : S) (b : B) :
  (bind m k s).1 = Return b ->
  exists a s1, m s = (Return a, s1) /\ (k a s1).1 = Return b.
Proof.
  unfold bind. destruct (m s) as [[a|e] s1]; [|done]. by exists a, s1.
Qed.

Lemma lift_returns_inv {A} (m : M World A) (f f1 : Frame) (a : A) :
  lift m f = (Return a, f1) -> exists w1, m (world f) = (Return a, w1).
Proof.
  unfold lift. destruct (m (world f)) as [r w1]. intros [= -> _]. by exists w1.
Qed.

Lemma render_pages_returns_inv (env : Env) (d : positive) (page_nums : list nat) :
  forall image_paths w a,
  (render_pages env d page_nums image_paths w).1 = Return a ->
  a = image_paths ++ List.map (pair d) page_nums.
Proof.
  induction page_nums as [|n rest IH]; intros image_paths w a.
  - simpl. intros [= <-]. by rewrite app_nil_r.
  - simpl. intros (_ & w1 & _ & H)%bind_returns_inv.
    apply bind_returns_inv in H as (_ & w2 & _ & H).
    apply IH in H as ->. by rewrite <- app_assoc.
Qed.

Lemma extract_pages_returns_inv (self : DeepSeekParser) (env : Env)
    (d : positive) (w : World) (a : list image_path) :
  (_extract_pages_as_images self env d w).1 = Return a ->
  exists doc_len, pdfium_len env = Ok doc_len
    /\ a = List.map (pair d) (seq 0 (Z.to_nat (Z.min doc_len (max_pages self)))).
Proof.
  unfold _extract_pages_as_images.
  intros (doc_len & w1 & Hlen & H)%bind_returns_inv.
  exists doc_len. split.
  - unfold call in Hlen. by destruct (pdfium_len env) as [n|]; [injection Hlen as ->|].
  - by apply render_pages_returns_inv in H as ->.
Qed.

(** When the loop over at least one image returns, the resolution of the
    parser is a known one and every page gave its text, or the empty
    text where inference failed. *)
Lemma ocr_pages_returns_inv {S} (self : DeepSeekParser) (env : Env)
    (image_paths : list image_path) : forall all_text (s : S) a,
  image_paths <> [] ->
  (ocr_pages self env image_paths all_text s).1 = Return a ->
  exists cfg, resolution_config !! resolution self = Some cfg
    /\ a = all_text
           ++ List.map (fun image => page_text env cfg image.2) image_paths.
Proof.
  induction image_paths as [|image rest IH]; intros all_text s a Hne; [done|].
  simpl. intros (t & s1 & Ht & H)%bind_returns_inv.
  unfold _extract_text_from_image_file, bind in Ht.
  destruct (resolution_config !! resolution self) as [cfg|] eqn:Hcfg; [|done].
  exists cfg. split; [done|].
  assert (t = page_text env cfg image.2) as ->.
  { unfold try_except, call, page_text, ret, raise in *. simpl in Ht.
    destruct (infer env image.2 cfg.1 cfg.2); by injection Ht as <- _. }
  destruct rest as [|image' rest'].
  - simpl in H. by injection H as <-.
  - apply IH in H as (cfg' & Hcfg' & ->); [|done].
    assert (cfg' = cfg) as -> by congruence.
    by rewrite <- app_assoc.
Qed.

(** X15.  Whenever [parse_pdf] of the vision backend returns a result,
    the result is determined by the document and the model: the document
    has at least one page and at most [max_pages], the resolution of the
    parser is a known one, [raw_text] is the texts of all pages of the
    document in page order (the empty text where inference failed)
    joined by blank lines, the sections are the segmentation of that
    text, figures, tables and references are empty, the parser tag is
    DEEPSEEK and "pages_processed" is the page count of the document. *)
Theorem returned_content_shape (format_mb : Z -> str)
    (self : DeepSeekParser) (env : Env) (w : World) (c : PdfContent) :
  (parse_pdf format_mb self env w).1 = Return (Some c) ->
  exists (pages : Z) (cfg : Z * Z),
    pdfium_len env = Ok pages
    /\ (1 <= pages <= max_pages self)%Z
    /\ resolution_config !! resolution self = Some cfg
    /\ c = content_of self
             (join [NL; NL]
                (List.map (page_text env cfg) (seq 0 (Z.to_nat pages))))
             pages.
Proof.
  intros H. apply parse_pdf_returns_inv in H. unfold try_except in H.
  destruct (parse_body format_mb self env (mkFrame w None)) as [[r|e] f] eqn:Hb;
    cycle 1.
  { pose proof (parse_handler_outcome e f) as He.
    destruct (parse_handler e f).1; [|done]. injection H as ->. by subst. }
  simpl in H. injection H as ->.
  assert ((parse_body format_mb self env (mkFrame w None)).1 = Return (Some c))
    as H by (by rewrite Hb).
  clear Hb. unfold parse_body in H.
  apply bind_returns_inv in H as (ok & f1 & Hval & H).
  apply bind_returns_inv in H as (_ & f2 & _ & H).
  apply bind_returns_inv in H as (d & f3 & _ & H).
  apply bind_returns_inv in H as (_ & f4 & _ & H).
  apply bind_returns_inv in H as (image_paths & f5 & Hext & H).
  apply bind_returns_inv in H as (u & f6 & Hne & H).
  apply bind_returns_inv in H as (all_text & f7 & Hocr & H).
  simpl in H. injection H as Hc. subst c.
  apply (f_equal fst) in Hval. simpl in Hval.
  assert (ok = true) as ->.
  { destruct (validate_only_validation_errors format_mb self env
                (mkFrame w None)) as [Ht|(msg & Hm)]; congruence. }
  apply validate_passes_only_if
    in Hval as (size & header & pages & _ & _ & _ & _ & _ & Hlen & Hpages).
  apply lift_returns_inv in Hext as (w5 & Hext).
  apply (f_equal fst) in Hext.
  apply extract_pages_returns_inv in Hext as (doc_len & Hlen' & Hpaths).
  assert (doc_len = pages) as -> by congruence.
  rewrite Z.min_l in Hpaths by done.
  assert (image_paths <> []) as Hnil.
  { unfold when_ in Hne. by case_bool_decide. }
  apply (f_equal fst) in Hocr. simpl in Hocr.
  apply ocr_pages_returns_inv in Hocr as (cfg & Hcfg & ->); [|done].
  assert (length image_paths = Z.to_nat pages) as Hlength.
  { by rewrite Hpaths, length_map, length_seq. }
  assert (length image_paths <> 0%nat) by (by destruct image_paths).
  exists pages, cfg. split; [done|]. split; [lia|]. split; [done|].
  unfold content_of. simpl app. rewrite Hlength, Z2Nat.id by lia.
  by rewrite Hpaths, List.map_map.
Qed.

Lemma returned_content_shape_witness :
  (parse_pdf format_mb_exact parser0 env_paper world0).1
  = Return (Some (content_of parser0
      (lit "# Title" ++ [NL] ++ lit "Abstract text" ++ [NL; NL]
       ++ lit "## Method" ++ [NL] ++ lit "We parse.") 2))
  /\ exists (pages : Z) (cfg : Z * Z),
       pdfium_len env_paper = Ok pages
       /\ (1 <= pages <= max_pages parser0)%Z
       /\ resolution_config !! resolution parser0 = Some cfg
       /\ content_of parser0
            (lit "# Title" ++ [NL] ++ lit "Abstract text" ++ [NL; NL]
             ++ lit "## Method" ++ [NL] ++ lit "We parse.") 2
          = content_of parser0
              (join [NL; NL]
                 (List.map (page_text env_paper cfg) (seq 0 (Z.to_nat pages))))
              pages.
Proof.
  assert ((parse_pdf format_mb_exact parser0 env_paper world0).1
          = Return (Some (content_of parser0
              (lit "# Title" ++ [NL] ++ lit "Abstract text" ++ [NL; NL]
               ++ lit "## Method" ++ [NL] ++ lit "We parse.") 2)))
    as H by (by vm_compute).
  split; [exact H|].
  exact (returned_content_shape format_mb_exact parser0 env_paper world0 _ H).
Defined.

(** ** The path to a result *)

Section Readable.
Context (self : DeepSeekParser) (env : Env).

Lemma extract_text_page_text {S} (cfg : Z * Z) (image : image_path) :
  resolution_config !! resolution self = Some cfg ->
  yields (_extract_text_from_image_file self env image : M S str)
    (fun r => exists a, r = Return a /\ a = page_text env cfg image.2).
Proof.
  intros Hcfg s.
  unfold _extract_text_from_image_file, bind, try_except, call, page_text.
  rewrite Hcfg. simpl.
  destruct (infer env image.2 cfg.1 cfg.2) as [t|msg]; simpl; eauto.
Qed.

Lemma ocr_pages_page_texts {S} (cfg : Z * Z) (image_paths : list image_path) :
  forall all_text,
  resolution_config !! resolution self = Some cfg ->
  yields (ocr_pages self env image_paths all_text : M S (list str))
    (fun r => exists a, r = Return a
              /\ a = all_text
                     ++ List.map (fun image => page_text env cfg image.2)
                          image_paths).
Proof.
  induction image_paths as [|image rest IH]; intros all_text Hcfg.
  - intros s. simpl. exists all_text. by rewrite app_nil_r.
  - simpl. eapply yields_bind; [by apply (extract_text_page_text cfg)|].
    intros page -> s.
    destruct (IH (all_text ++ [page_text env cfg image.2]) Hcfg s)
      as (a & Ha & ->).
    eexists. split; [exact Ha|]. by rewrite <- app_assoc.
Qed.

End Readable.

(** X16.  On a document that passes validation, with the model loaded,
    the directory made, every page rendered and the directory removed
    without failure at the end, [parse_pdf] returns a result whose
    [raw_text] is the texts of the pages, in page order, joined by blank
    lines; a page on which inference raises counts as the empty text and
    does not stop the others. *)
Theorem readable_document_is_returned (format_mb : Z -> str)
    (self : DeepSeekParser) (env : Env) (w : World)
    (size pages : Z) (header : list Byte.byte) (cfg : Z * Z) :
  resolution_config !! resolution self = Some cfg ->
  stat_st_size env = Ok size -> size <> 0%Z ->
  (size <= max_file_size_bytes self)%Z ->
  read_header env = Ok header -> startswith Byte.eqb pdf_magic header = true ->
  pdfium_len env = Ok pages -> (0 < pages <= max_pages self)%Z ->
  tokenizer_from_pretrained env = Ok tt ->
  model_from_pretrained env = Ok tt ->
  model_to_device env = Ok tt ->
  mkdtemp env = Ok tt ->
  (forall n, (n < Z.to_nat pages)%nat -> render_save env n = Ok tt) ->
  temp_dir_exists env = Ok tt -> shutil_rmtree env = Ok tt ->
  (parse_pdf format_mb self env w).1
  = Return (Some (content_of self
      (join [NL; NL] (List.map (page_text env cfg) (seq 0 (Z.to_nat pages))))
      pages)).
Proof.
  intros Hcfg Hstat Hne Hle Hhead Hmagic Hlen [Hpos Hpages] Htok Hmod Hdev Hmk
    Hrender Hexists Hrmtree.
  rewrite parse_pdf_outcome by done.
  assert (yields (parse_body format_mb self env)
            (fun r => r = Return (Some (content_of self
               (join [NL; NL]
                  (List.map (page_text env cfg) (seq 0 (Z.to_nat pages))))
               pages)))) as Hbody.
  { unfold parse_body.
    eapply (yields_bind _ _ (fun _ => True)).
    { intros f. rewrite (validate_ok _ _ _ size header pages) by done.
      by exists true. }
    intros _ _.
    eapply yields_bind; [by apply yields_lift, lazy_load_returns|]. intros _ _.
    eapply yields_bind; [by apply yields_lift, mkdtemp_returns|]. intros d _.
    eapply (yields_bind _ _ (fun _ => True)); [intros f; by exists tt|].
    intros _ _.
    eapply yields_bind;
      [by apply yields_lift, (extract_pages_returns _ _ d pages)|].
    intros image_paths ->.
    eapply (yields_bind _ _ (fun _ => True)).
    { intros f. case_bool_decide as Hnil; [|by exists tt].
      apply (f_equal length) in Hnil.
      rewrite length_map, length_seq in Hnil. simpl in Hnil. lia. }
    intros _ _.
    eapply yields_bind; [by apply (ocr_pages_page_texts _ _ cfg)|].
    intros all_text ->. apply yields_ret.
    rewrite length_map, length_seq, List.map_map. simpl.
    unfold content_of. by rewrite Z2Nat.id by lia. }
  unfold try_except. specialize (Hbody (mkFrame w None)).
  destruct (parse_body format_mb self env (mkFrame w None)) as [r f].
  simpl in Hbody. by subst r.
Qed.

Lemma readable_document_is_returned_witness :
  resolution_config !! resolution parser0 = Some (1024, 640)%Z
  /\ (parse_pdf format_mb_exact parser0 env_paper world0).1
     = Return (Some (content_of parser0
         (join [NL; NL]
            (List.map (page_text env_paper (1024, 640)%Z) (seq 0 (Z.to_nat 2))))
         2)).
Proof.
  split; [by vm_compute|].
  apply (readable_document_is_returned format_mb_exact parser0 env_paper world0
           51200 2 pdf_magic (1024, 640)%Z);
    try reflexivity; try lia; by vm_compute.
Defined.

(** ** Pages that cannot be rendered *)

Lemma yields_bind_raise {S A B} (m : M S A) (k : A -> M S B) (e : exn) :
  yields m (fun r => r = Raise e) -> yields (bind m k) (fun r => r = Raise e).
Proof.
  intros Hm s. unfold bind. specialize (Hm s).
  destruct (m s) as [r s']. simpl in Hm. by subst r.
Qed.

Lemma render_pages_fails (env : Env) (d : positive) (before : list nat)
    (n : nat) (after : list nat) (msg : str) : forall image_paths,
  Forall (fun j => render_save env j = Ok tt) before ->
  render_save env n = Fails msg ->
  yields (render_pages env d (before ++ n :: after) image_paths)
    (fun r => r = Raise (OtherException msg)).
Proof.
  induction before as [|j before IH]; intros image_paths Hok Hn w; simpl.
  - unfold bind, call. by rewrite Hn.
  - inversion Hok as [|? ? Hj Hrest]; subst.
    unfold bind at 1. rewrite Hj. simpl. unfold bind at 1. simpl.
    by apply IH.
Qed.



(** ** The memoised model *)

(** X18.  The model is loaded at most once: after one call of
    [_lazy_load_model] has returned, the model is set, and every later
    call returns at once, without a call to the libraries and without
    changing anything, whatever they would answer. *)
Theorem loaded_model_is_reused (env : Env) (w : World) :
  (_lazy_load_model env w).1 = Return tt ->
  _model (_lazy_load_model env w).2 = true
  /\ forall env', _lazy_load_model env' (_lazy_load_model env w).2
                  = (Return tt, (_lazy_load_model env w).2).
Proof.
  intros Hret.
  assert (_model (_lazy_load_model env w).2 = true) as Hm.
  { revert Hret.
    unfold _lazy_load_model, bind, get, modify, call, ret, raise. simpl.
    destruct (_model w) eqn:Hw; [done|].
    destruct (tokenizer_from_pretrained env); [|done]. simpl.
    destruct (model_from_pretrained env); [|done]. simpl.
    by destruct (model_to_device env). }
  split; [done|]. intros env'.
  unfold _lazy_load_model at 1. unfold bind, get. simpl. by rewrite Hm.
Qed.

Lemma loaded_model_is_reused_witness :
  (_lazy_load_model env_paper world0).1 = Return tt
  /\ _model (_lazy_load_model env_paper world0).2 = true
  /\ forall env', _lazy_load_model env' (_lazy_load_model env_paper world0).2
                  = (Return tt, (_lazy_load_model env_paper world0).2).
Proof.
  split; [reflexivity|].
  exact (loaded_model_is_reused env_paper world0 eq_refl).
Defined.

(** X19.  When the model is fetched but moving it to the device fails,
    the call raises, yet the field [_model] is already set: the next call
    takes the model for loaded and does not try again. *)
Theorem half_loaded_model_is_kept (env : Env) (w : World) (msg : str) :
  _model w = false ->
  tokenizer_from_pretrained env = Ok tt ->
  model_from_pretrained env = Ok tt ->
  model_to_device env = Fails msg ->
  (_lazy_load_model env w).1 = Raise (OtherException msg)
  /\ forall env', _lazy_load_model env' (_lazy_load_model env w).2
                  = (Return tt, (_lazy_load_model env w).2).
Proof.
  intros Hw Htok Hmod Hdev.
  assert (_lazy_load_model env w
          = (Raise (OtherException msg), mkWorld (tmpfs w) true true)) as ->.
  { unfold _lazy_load_model, bind, get, modify, call, ret, raise. simpl.
    rewrite Hw, Htok. simpl. rewrite Hmod. simpl. by rewrite Hdev. }
  split; [done|]. intros env'. done.
Qed.

Lemma half_loaded_model_is_kept_witness :
  _model world0 = false
  /\ (_lazy_load_model
        (mkEnv [] [] (Ok true) (Ok 1%Z) (Ok pdf_magic) (Ok 1%Z) (fun _ => Ok tt)
           (Ok tt) (Ok tt) (Fails (lit "CUDA error")) (Ok tt)
           (fun _ _ _ => Ok []) (Ok tt) (Ok tt))
        world0).1 = Raise (OtherException (lit "CUDA error")).
Proof.
  split; [reflexivity|].
  apply (half_loaded_model_is_kept
           (mkEnv [] [] (Ok true) (Ok 1%Z) (Ok pdf_magic) (Ok 1%Z)
              (fun _ => Ok tt)
              (Ok tt) (Ok tt) (Fails (lit "CUDA error")) (Ok tt)
              (fun _ _ _ => Ok []) (Ok tt) (Ok tt))
           world0 (lit "CUDA error")); reflexivity.
Defined.

(** ** Page images *)

Lemma render_pages_all (env : Env) (d : positive) (page_nums : list nat) :
  forall image_paths w files,
  Forall (fun n => render_save env n = Ok tt) page_nums ->
  tmpfs w !! d = Some files ->
  render_pages env d page_nums image_paths w
  = (Return (image_paths ++ List.map (pair d) page_nums),
     set_tmpfs (insert d (list_to_set page_nums ∪ files)) w).
Proof.
  induction page_nums as [|n rest IH]; intros image_paths w files Hok Hd.
  - simpl. rewrite app_nil_r. unfold ret, set_tmpfs. f_equal.
    rewrite (left_id_L ∅ (∪)), insert_id by done. by destruct w.
  - inversion Hok as [|? ? Hn Hrest]; subst. simpl.
    unfold bind at 1. rewrite Hn. simpl. unfold bind at 1. simpl.
    rewrite (IH _ _ ({[n]} ∪ files)); [| done |].
    + rewrite <- app_assoc. f_equal.
      unfold save_image, set_tmpfs. simpl. rewrite insert_alter_eq.
      do 2 f_equal. rewrite (assoc_L (∪)).
      by rewrite (comm_L (∪) (list_to_set rest) {[n]}).
    + unfold save_image, set_tmpfs. simpl.
      by rewrite lookup_alter_eq, Hd.
Qed.

(** X20.  [_extract_pages_as_images] renders the first
    [min(number of pages, max_pages)] pages and no more: when each of
    them renders, it returns their image paths in page order, and the
    directory then holds exactly these images besides what it held
    before. *)
Theorem extracted_pages_are_the_first_ones (self : DeepSeekParser) (env : Env)
    (d : positive) (w : World) (doc_len : Z) (files : gset nat) :
  pdfium_len env = Ok doc_len ->
  (forall n, (n < Z.to_nat (Z.min doc_len (max_pages self)))%nat ->
             render_save env n = Ok tt) ->
  tmpfs w !! d = Some files ->
  _extract_pages_as_images self env d w
  = (Return (List.map (pair d)
               (seq 0 (Z.to_nat (Z.min doc_len (max_pages self))))),
     set_tmpfs
       (insert d (list_to_set (seq 0 (Z.to_nat (Z.min doc_len (max_pages self))))
                  ∪ files)) w).
Proof.
  intros Hlen Hok Hd. unfold _extract_pages_as_images, bind.
  rewrite Hlen. simpl.
  assert (mkdir_exist_ok d w = w) as ->.
  { unfold mkdir_exist_ok, set_tmpfs. rewrite Hd. by destruct w. }
  apply (render_pages_all env d _ [] w files); [|done].
  apply Forall_forall. intros n Hn. apply Hok.
  apply list_elem_of_In, in_seq in Hn. lia.
Qed.

Lemma extracted_pages_are_the_first_ones_witness :
  pdfium_len (doc [] [] 51200 40 (fun _ => Ok [])) = Ok 40%Z
  /\ (_extract_pages_as_images parser0 (doc [] [] 51200 40 (fun _ => Ok []))
        1%positive (mkWorld {[ 1%positive := ∅ ]} true true)).1
     = Return (List.map (pair 1%positive)
                 (seq 0 (Z.to_nat (Z.min 40 (max_pages parser0))))).
Proof.
  split; [reflexivity|].
  rewrite (extracted_pages_are_the_first_ones parser0
             (doc [] [] 51200 40 (fun _ => Ok [])) 1%positive
             (mkWorld {[ 1%positive := ∅ ]} true true) 40 ∅);
    [reflexivity|reflexivity|intros n Hn; reflexivity|reflexivity].
Defined.

(** ** The service *)

(** X21.  [parse_pdf] of the service never returns "no result", whatever
    the backend returns or raises, and what it raises is a
    [PDFValidationError] or a [PDFParsingException], with one exception:
    a failure of [pdf_path.exists()], which is called before the [try]
    block and raised as it is. *)
Theorem service_returns_content_or_error (format_mb : Z -> str)
    (docling_parse_pdf : Service.DoclingParser -> Env -> M World (option PdfContent))
    (self : Service.PDFParserService) (env : Env) (w : World) :
  match (Service.parse_pdf format_mb docling_parse_pdf self env w).1 with
  | Return r => r <> None
  | Raise e =>
      parser_error e
      \/ exists msg, e = OtherException msg /\ path_exists env = Fails msg
  end.
Proof.
  unfold Service.parse_pdf, try_except, bind, when_, call.
  destruct (path_exists env) as [[|]|msg]; simpl.
  - destruct (Service.backend_parse_pdf format_mb docling_parse_pdf self env w)
      as [[[c|]|e] w']; [done|left; by right|].
    destruct e; left; first [by left|by right].
  - left. by left.
  - right. by exists msg.
Qed.

Lemma resolution_known_iff (r : str) :
  is_Some (resolution_config !! r)
  <-> r ∈ [lit "tiny"; lit "small"; lit "base"; lit "large"].
Proof.
  unfold resolution_config. simpl list_to_map.
  rewrite !lookup_insert_is_Some', lookup_empty.
  rewrite !elem_of_cons, elem_of_nil.
  split.
  - intros [H|[H|[H|[H|H]]]]; [auto 6..|by destruct H].
  - intros [H|[H|[H|[H|[]]]]]; auto 6.
Qed.

(** X22.  Whatever [str.lower] does to the name and whatever the
    constructor of the layout backend does: constructing the service
    succeeds exactly when the lowered parser type is "deepseek" and the
    resolution is one of the four known ones, or the lowered parser type
    is "docling" and the constructor of the layout backend returns; for
    "docling" the resolution is not looked at.  The service keeps the
    lowered name. *)
Theorem service_construction (str_lower : str -> str)
    (DoclingParser_init : Z -> Z -> bool -> bool -> outcome Service.DoclingParser)
    (parser_type : str) (max_pages max_file_size_mb : Z)
    (do_ocr do_table_structure : bool) (deepseek_model deepseek_resolution : str) :
  (exists svc, Service.__init__ str_lower DoclingParser_init parser_type
                 max_pages max_file_size_mb do_ocr do_table_structure
                 deepseek_model deepseek_resolution
               = Return svc
               /\ Service.parser_type svc = str_lower parser_type)
  <-> (str_lower parser_type = lit "deepseek"
       /\ deepseek_resolution ∈ [lit "tiny"; lit "small"; lit "base"; lit "large"])
      \/ (str_lower parser_type = lit "docling"
          /\ exists p, DoclingParser_init max_pages max_file_size_mb do_ocr
                         do_table_structure = Return p).
Proof.
  unfold Service.__init__, __init__.
  pose proof (resolution_known_iff deepseek_resolution) as Hres.
  case_bool_decide as Hds.
  - destruct (resolution_config !! deepseek_resolution) as [cfg|] eqn:Hcfg.
    + split; [intros _; left; split; [done|by apply Hres]|].
      intros _. eexists. split; [done|]. done.
    + split.
      * by intros (svc & ? & _).
      * intros [[_ Hin]|[Hd _]]; [by apply Hres in Hin as [? ?]|].
        rewrite Hds in Hd. by vm_compute in Hd.
  - case_bool_decide as Hd.
    + destruct (DoclingParser_init max_pages max_file_size_mb do_ocr
                  do_table_structure) as [p|e].
      * split; [intros _; right; split; [done|by exists p]|].
        intros _. eexists. split; [done|]. done.
      * split; [by intros (svc & ? & _)|].
        by intros [[? _]|[_ [p ?]]].
    + split; [by intros (svc & ? & _)|]. by intros [[? _]|[? _]].
Qed.

(** On names in ASCII letters [str.lower] is [lower]: the name is lowered
    before it is looked at, and the two [ValueError]s give the name or
    the resolution as it was passed. *)
Lemma service_name_any_case :
  Service.__init__ lower docling_init0 (lit "DeepSeek") 30 20 false true
    (lit "m") (lit "base")
  = Return (Service.mkService (lit "deepseek")
              (Service.UseDeepSeek
                 (mkDeepSeekParser 30 20971520 (lit "m") (lit "base"))))
  /\ Service.__init__ lower docling_init0 (lit "Docling") 30 20 false true
       (lit "m") (lit "huge")
     = Return (Service.mkService (lit "docling")
                 (Service.UseDocling (Service.mkDoclingParser 30 20 false true)))
  /\ Service.__init__ lower docling_init0 (lit "GROBID") 30 20 false true
       (lit "m") (lit "base")
     = Raise (ValueError
                (lit "Unknown parser type: GROBID. Must be 'docling' or 'deepseek'"))
  /\ Service.__init__ lower docling_init0 (lit "deepseek") 30 20 false true
       (lit "m") (lit "huge")
     = Raise (ValueError
                (lit "Invalid resolution: huge. Must be one of ['tiny', 'small', 'base', 'large']")).
Proof. repeat split; by vm_compute. Qed.

(** ** The download script *)

Import Download.

Lemma clean_id_cut (a b : str) :
  Forall (fun c => c <> 118) a ->
  clean_id (a ++ 118 :: b) = a /\ clean_id a = a.
Proof.
  intros Ha. unfold clean_id.
  by rewrite split_app, !(split_no_sep 118 a).
Qed.

(** X23.  The arXiv id is cut at its first letter "v": a version suffix
    "v<n>" after an id without "v" is removed, and an id without "v" is
    left as it is. *)
Theorem arxiv_id_is_cut_at_first_v (a b : str) :
  Forall (fun c => c <> 118) a ->
  clean_id (a ++ 118 :: b) = a /\ clean_id a = a.
Proof. apply clean_id_cut. Qed.

Lemma arxiv_id_is_cut_at_first_v_witness :
  Forall (fun c => c <> 118) (lit "2501.10234")
  /\ clean_id (lit "2501.10234" ++ 118 :: lit "2") = lit "2501.10234"
  /\ clean_id (lit "2501.10234") = lit "2501.10234".
Proof.
  assert (Forall (fun c => c <> 118) (lit "2501.10234")) as H.
  { apply Forall_forall. intros c Hc ->. apply list_elem_of_In in Hc.
    vm_compute in Hc. repeat destruct Hc as [Hc|Hc]; done. }
  split; [exact H|].
  exact (arxiv_id_is_cut_at_first_v (lit "2501.10234") (lit "2") H).
Defined.

(** An old-style id with a "v" in its archive name is cut there too. *)
Lemma old_style_id_is_cut :
  clean_id (lit "solv-int/9901001") = lit "sol".
Proof. by vm_compute. Qed.

Section DownloadProps.
Context (joinpath : str -> str -> str) (net : Net) (arxiv_id output_dir : str).

Let output_path : str := joinpath output_dir (clean_id arxiv_id ++ lit ".pdf").

Lemma download_cached (disk : gmap str (list Byte.byte)) :
  mkdir net = Ok tt -> is_Some (disk !! output_path) ->
  download_arxiv_pdf joinpath net arxiv_id output_dir disk
  = (Return output_path, disk).
Proof.
  intros Hmk Hex. unfold download_arxiv_pdf, bind, get, call. rewrite Hmk.
  simpl. fold output_path. by rewrite bool_decide_eq_true_2.
Qed.

Lemma download_failed (disk : gmap str (list Byte.byte)) (msg : str) :
  mkdir net = Ok tt -> disk !! output_path = None ->
  requests_get net (pdf_url (clean_id arxiv_id)) = Fails msg
  \/ (exists response,
        requests_get net (pdf_url (clean_id arxiv_id)) = Ok response
        /\ (raise_for_status response = Fails msg
            \/ raise_for_status response = Ok tt /\ open_wb net = Fails msg)) ->
  download_arxiv_pdf joinpath net arxiv_id output_dir disk
  = (Raise (OtherException msg), disk).
Proof.
  intros Hmk Hno Hfail.
  unfold download_arxiv_pdf, bind, get, call, try_except. rewrite Hmk.
  simpl. fold output_path.
  rewrite bool_decide_eq_false_2 by (rewrite Hno; by intros [? ?]).
  destruct Hfail as [Hget|(response & Hget & Hst)]; rewrite Hget; simpl;
    [done|].
  destruct Hst as [Hst|[Hst Hopen]]; rewrite Hst; simpl; [done|].
  by rewrite Hopen.
Qed.

Lemma download_written (disk : gmap str (list Byte.byte)) (response : Response) :
  mkdir net = Ok tt -> disk !! output_path = None ->
  requests_get net (pdf_url (clean_id arxiv_id)) = Ok response ->
  raise_for_status response = Ok tt ->
  open_wb net = Ok tt -> write net = Ok tt ->
  download_arxiv_pdf joinpath net arxiv_id output_dir disk
  = (Return output_path, <[output_path := response_content response]> disk).
Proof.
  intros Hmk Hno Hget Hst Hopen Hwrite.
  unfold download_arxiv_pdf, bind, get, call, try_except, modify. rewrite Hmk.
  simpl. fold output_path.
  rewrite bool_decide_eq_false_2 by (rewrite Hno; by intros [? ?]).
  rewrite Hget. simpl. rewrite Hst. simpl. rewrite Hopen. simpl.
  rewrite Hwrite. simpl. by rewrite insert_insert_eq.
Qed.

Lemma download_torn (disk : gmap str (list Byte.byte)) (response : Response)
    (msg : str) :
  mkdir net = Ok tt -> disk !! output_path = None ->
  requests_get net (pdf_url (clean_id arxiv_id)) = Ok response ->
  raise_for_status response = Ok tt ->
  open_wb net = Ok tt -> write net = Fails msg ->
  download_arxiv_pdf joinpath net arxiv_id output_dir disk
  = (Raise (OtherException msg), <[output_path := []]> disk).
Proof.
  intros Hmk Hno Hget Hst Hopen Hwrite.
  unfold download_arxiv_pdf, bind, get, call, try_except, modify. rewrite Hmk.
  simpl. fold output_path.
  rewrite bool_decide_eq_false_2 by (rewrite Hno; by intros [? ?]).
  rewrite Hget. simpl. rewrite Hst. simpl. rewrite Hopen. simpl.
  by rewrite Hwrite.
Qed.

End DownloadProps.








